(** * YT-DOWNLOADER backend (backend/main.py): admission, cache and download pipeline

    A shallow embedding of the request-admission layer (check_rate_limit),
    the file-backed metadata cache (get_cached_info / save_cache_info), the
    two request handlers (get_video_info, download_video) and the streaming
    generator (download_video.iterfile), followed by the properties that
    the design document states about them.

    Conventions.
    - Python dictionaries are finite maps (gmap); Python lists are lists.
    - Clock readings are integers: [time.time()] in the rate limiter is a
      number of seconds, [datetime.utcnow()] in the cache is a number of
      microseconds (the resolution of a Python datetime).
    - Functions that mutate module state take the state and return the new
      one; functions that raise return a sum with the exception on the
      right-hand side.
    - A Python [str] is kept as the bytes of its UTF-8 encoding, so the
      ASCII characters that the code searches and splits on are single
      bytes, and a character above U+00FF shows as a byte of value 196
      or more. *)

From Stdlib Require Import ZArith List String Ascii Bool Lia Sorted.
From stdpp Require Import base option list gmap strings.
Import ListNotations.

Local Open Scope string_scope.
Local Open Scope list_scope.
Local Open Scope Z_scope.

(** ** RateLimiter: [RATE_LIMIT], [rate_limit_store], [check_rate_limit] *)

Module RateLimiter.

Record config := { window_seconds : Z; max_requests : Z }.

(** RATE_LIMIT = {"window_seconds": 3600, "max_requests": 100} *)
Definition RATE_LIMIT : config :=
  {| window_seconds := 3600; max_requests := 100 |}.

(** The condition of the list comprehension at lines 88-89:
    [current_time - t < RATE_LIMIT["window_seconds"]]. *)
Definition in_window (cfg : config) (current_time t : Z) : bool :=
  current_time - t <? window_seconds cfg.

(** [check_rate_limit(ip)], with the clock reading and the module-level
    [rate_limit_store] made explicit. Each [let] is one statement of the
    source; [store !!! ip] is [rate_limit_store[ip]], which is defined at
    every place it is read because the first statement creates the key. *)
Definition check_rate_limit (cfg : config) (current_time : Z) (ip : string)
    (rate_limit_store : gmap string (list Z)) : bool * gmap string (list Z) :=
  let store1 :=
    match rate_limit_store !! ip with
    | None => <[ip := []]> rate_limit_store
    | Some _ => rate_limit_store
    end in
  let store2 :=
    <[ip := List.filter (in_window cfg current_time) (store1 !!! ip)]> store1 in
  if max_requests cfg <=? Z.of_nat (length (store2 !!! ip))
  then (false, store2)
  else (true, <[ip := (store2 !!! ip) ++ [current_time]]> store2).

(** A sequence of calls [(ip, current_time)], threaded through the store
    in order; the decisions are returned in call order. *)
Fixpoint run (cfg : config) (calls : list (string * Z))
    (store : gmap string (list Z)) : list bool * gmap string (list Z) :=
  match calls with
  | [] => ([], store)
  | (ip, t) :: rest =>
      let '(ok, store') := check_rate_limit cfg t ip store in
      let '(oks, store'') := run cfg rest store' in
      (ok :: oks, store'')
  end.

(** The decisions handed to one identity during a run. *)
Fixpoint decisions_for (cfg : config) (who : string)
    (calls : list (string * Z)) (store : gmap string (list Z)) : list bool :=
  match calls with
  | [] => []
  | (ip, t) :: rest =>
      let '(ok, store') := check_rate_limit cfg t ip store in
      if decide (ip = who)
      then ok :: decisions_for cfg who rest store'
      else decisions_for cfg who rest store'
  end.

(** The calls of one identity within an interleaving. *)
Definition calls_of (who : string) (calls : list (string * Z)) : list (string * Z) :=
  List.filter (fun c => bool_decide (c.1 = who)) calls.

(** Stores that the program can be in: the module starts with an empty
    dictionary and only [check_rate_limit] writes to it. *)
Inductive reachable (cfg : config) : gmap string (list Z) -> Prop :=
| reachable_init : reachable cfg ∅
| reachable_call store t ip :
    reachable cfg store ->
    reachable cfg (check_rate_limit cfg t ip store).2.

(** *** The admission rule in the words of the design document

    "purge timestamps older than the window for that identity, then if the
    remaining count >= quota, return false without recording the new
    attempt; otherwise append now to the list and return true", on the
    timestamp list of one identity. The window is half open: a timestamp
    whose age is exactly [window_seconds] is purged. *)
Definition purge (cfg : config) (now : Z) (stamps : list Z) : list Z :=
  List.filter (fun t => now - t <? window_seconds cfg) stamps.

Definition admission (cfg : config) (now : Z) (stamps : list Z) : bool * list Z :=
  let remaining := purge cfg now stamps in
  if Z.of_nat (length remaining) >=? max_requests cfg
  then (false, remaining)
  else (true, remaining ++ [now]).

(** Successive admissions of a single identity, by the rule above. *)
Fixpoint admission_seq (cfg : config) (times : list Z) (stamps : list Z)
    : list bool * list Z :=
  match times with
  | [] => ([], stamps)
  | now :: rest =>
      let '(ok, stamps') := admission cfg now stamps in
      let '(oks, stamps'') := admission_seq cfg rest stamps' in
      (ok :: oks, stamps'')
  end.

End RateLimiter.

(** ** Python exceptions and results *)

(** The exception classes that the handlers raise or catch. Every one of
    them derives from Python's [Exception]; [DownloadError] is
    [yt_dlp.utils.DownloadError], [HTTPException] is FastAPI's. The detail
    of an [HTTPException] is either a literal or an f-string that embeds
    [str(e)] of a caught exception [e]. *)
Inductive exn : Type :=
| DownloadError (msg : string)
| ValueError (msg : string)
| KeyError (key : string)
| FileNotFoundError (filename : string)
| OSError (msg : string)
| UnicodeEncodeError (encoding : string)
| HTTPException (status_code : Z) (detail : http_detail)
with http_detail : Type :=
| Text (s : string)
| FString (prefix : string) (e : exn).

Inductive result (A : Type) : Type :=
| Ok (a : A)
| Raise (e : exn).
Arguments Ok {A} a.
Arguments Raise {A} e.

(** ** VideoURL and its [video_id] property *)

Module Url.

(** The three attributes of [urlparse(str(self.url))] that [video_id] reads. *)
Record ParseResult := { netloc : string; path : string; query : string }.

(** The request body [VideoURL]; its [url] is kept in parsed form. *)
Record VideoURL := { url : ParseResult }.

(** [sub in s] on Python strings. *)
Fixpoint contains (sub s : string) : bool :=
  match s with
  | EmptyString => String.prefix sub EmptyString
  | String _ rest => String.prefix sub s || contains sub rest
  end.

(** [s.split(sep)] for a one-character separator. *)
Fixpoint split (sep : ascii) (s : string) : list string :=
  match s with
  | EmptyString => [EmptyString]
  | String c rest =>
      if Ascii.eqb c sep then EmptyString :: split sep rest
      else match split sep rest with
           | [] => [String c EmptyString]
           | piece :: pieces => String c piece :: pieces
           end
  end.

(** [s.count(c)] for a one-character [c]. *)
Fixpoint count (c : ascii) (s : string) : nat :=
  match s with
  | EmptyString => 0
  | String c' rest => (if Ascii.eqb c' c then 1 else 0) + count c rest
  end.

(** [s[1:]] *)
Definition slice_from_1 (s : string) : string :=
  match s with
  | EmptyString => EmptyString
  | String _ rest => rest
  end.

(** [dict(iterable)] over an iterable of lists: every element must have
    exactly two items, a later pair replaces an earlier one with the same
    key, and the first element of another length raises [ValueError]. *)
Fixpoint dict_of (items : list (list string)) (acc : gmap string string)
    : result (gmap string string) :=
  match items with
  | [] => Ok acc
  | [k; v] :: rest => dict_of rest (<[k := v]> acc)
  | _ :: _ => Raise (ValueError "dictionary update sequence element has the wrong length; 2 is required")
  end.

(** The [video_id] property of [VideoURL] (lines 53-61). *)
Definition video_id (video : VideoURL) : result string :=
  let parsed := url video in
  if contains "youtu.be" (netloc parsed) then
    Ok (slice_from_1 (path parsed))
  else if contains "youtube.com" (netloc parsed) then
    match dict_of (map (split "=")
                     (List.filter (contains "=") (split "&" (query parsed)))) ∅ with
    | Ok query => Ok (default "" (query !! "v"))
    | Raise e => Raise e
    end
  else Raise (ValueError "Invalid YouTube URL").

End Url.

(** ** pathlib: how [CACHE_DIR / name] names a file *)

Module Pathlib.

Import Url.

(** [sep.join(parts)] *)
Fixpoint join (sep : string) (parts : list string) : string :=
  match parts with
  | [] => EmptyString
  | [part] => part
  | part :: rest => part +:+ sep +:+ join sep rest
  end.

(** The root of a POSIX path: exactly two leading slashes are kept, any
    other number of leading slashes is one. *)
Definition root_of (s : string) : string :=
  if String.prefix "//" s && negb (String.prefix "///" s) then "//"
  else if String.prefix "/" s then "/"
  else EmptyString.

(** The components of a POSIX path: the pieces between slashes, without
    the empty ones and the ["."] ones; [".."] is kept. *)
Definition components (s : string) : list string :=
  List.filter (fun c => negb (String.eqb c EmptyString) && negb (String.eqb c "."))
    (split "/" s).

(** [str(PurePosixPath(s))] *)
Definition normalise (s : string) : string :=
  match root_of s, components s with
  | EmptyString, [] => "."
  | root, parts => root +:+ join "/" parts
  end.

(** [str(Path(base) / name)]: an absolute [name] replaces [base]. *)
Definition joinpath (base name : string) : string :=
  if String.prefix "/" name then normalise name
  else normalise (base +:+ "/" +:+ name).

End Pathlib.

(** ** The data model: VideoFormat, VideoInfo and the engine's dictionaries *)

Module Model.

Record VideoFormat := {
  format_id : string;
  ext : string;
  quality : string;
  filesize : option Z;
  resolution : option string;
  fps : option Z;
  vcodec : option string;
  acodec : option string
}.

Record VideoInfo := {
  title : string;
  thumbnail : string;
  duration : Z;
  formats : list VideoFormat;
  description : option string;
  view_count : option Z;
  upload_date : option string
}.

(** One entry of [info['formats']] as the extraction engine returns it: a
    dictionary in which any key may be missing ([None]). *)
Record FormatDict := {
  f_format_id : option string;
  f_ext : option string;
  f_format_note : option string;
  f_filesize : option Z;
  f_resolution : option string;
  f_fps : option Z;
  f_vcodec : option string;
  f_acodec : option string
}.

(** The [info] dictionary returned by [ydl.extract_info]. *)
Record InfoDict := {
  i_title : option string;
  i_thumbnail : option string;
  i_duration : option Z;
  i_formats : option (list FormatDict);
  i_description : option string;
  i_view_count : option Z;
  i_upload_date : option string
}.

(** The literal list in the comprehension's filter (line 178). *)
Definition ALLOWED_EXT : list string := ["mp4"; "webm"; "m4a"; "mp3"].

(** [f.get('ext') in ['mp4', 'webm', 'm4a', 'mp3']] *)
Definition ext_accepted (f : FormatDict) : bool :=
  match f_ext f with
  | Some e => existsb (String.eqb e) ALLOWED_EXT
  | None => false
  end.

(** [d[key]]: a missing key raises [KeyError]. *)
Definition getitem {A : Type} (key : string) (field : option A) : result A :=
  match field with
  | Some a => Ok a
  | None => Raise (KeyError key)
  end.

(** The [VideoFormat(...)] constructor call of lines 167-176. *)
Definition make_format (f : FormatDict) : result VideoFormat :=
  match getitem "format_id" (f_format_id f) with
  | Raise e => Raise e
  | Ok fid =>
      Ok {| format_id := fid;
            ext := default "" (f_ext f);
            quality := default "" (f_format_note f);
            filesize := f_filesize f;
            resolution := f_resolution f;
            fps := f_fps f;
            vcodec := f_vcodec f;
            acodec := f_acodec f |}
  end.

(** The list comprehension of lines 166-179, evaluated left to right. *)
Fixpoint shape_formats (fs : list FormatDict) : result (list VideoFormat) :=
  match fs with
  | [] => Ok []
  | f :: rest =>
      if ext_accepted f then
        match make_format f with
        | Raise e => Raise e
        | Ok vf =>
            match shape_formats rest with
            | Raise e => Raise e
            | Ok vfs => Ok (vf :: vfs)
            end
        end
      else shape_formats rest
  end.

(** The [VideoInfo(...)] constructor call of lines 181-189. *)
Definition make_info (info : InfoDict) (fmts : list VideoFormat) : result VideoInfo :=
  match getitem "title" (i_title info) with
  | Raise e => Raise e
  | Ok t =>
  match getitem "thumbnail" (i_thumbnail info) with
  | Raise e => Raise e
  | Ok th =>
  match getitem "duration" (i_duration info) with
  | Raise e => Raise e
  | Ok d =>
      Ok {| title := t; thumbnail := th; duration := d; formats := fmts;
            description := i_description info;
            view_count := i_view_count info;
            upload_date := i_upload_date info |}
  end end end.

End Model.

(** ** The state outside the interpreter: files and engine calls *)

Module World.

Import Url Model.

(** The JSON document that [save_cache_info] writes: the [cache_time]
    (ISO text of a datetime, kept as its microsecond count) and the
    payload. [json.loads (json.dumps d)] and
    [fromisoformat (isoformat t)] give back [d] and [t], so the file is
    kept in decoded form. *)
Record cache_data := { cache_time : Z; info : VideoInfo }.

(** What the handlers do to the outside, in order of occurrence. *)
Inductive event : Type :=
| EvExtractInfo (video : VideoURL)
| EvExtractDownload (video : VideoURL) (format_id : string)
| EvOpen (filename : string)
| EvClose (filename : string)
| EvUnlink (filename : string).

(** Why the operating system refuses to create a file. *)
Inductive refusal : Type :=
| NoSuchDirectory
| OtherRefusal (msg : string).

(** The exception that [open(path, 'w')] raises for a refusal. *)
Definition refusal_exn (p : string) (r : refusal) : exn :=
  match r with
  | NoSuchDirectory => FileNotFoundError p
  | OtherRefusal msg => OSError msg
  end.

(** [cache_files]: the JSON files written by [save_cache_info], by the
    text of their path, with decoded content.
    [download_files]: the files of the download directory, path to bytes.
    [create_refused]: the answer of the operating system when a file that
    does not exist yet is to be created at a path: [None] when it is
    created, or the reason why not (a directory on the way is missing,
    the name is too long, ...). An existing file can be rewritten. *)
Record world := {
  cache_files : gmap string cache_data;
  download_files : gmap string (list Byte.byte);
  trace : list event;
  create_refused : string -> option refusal
}.

Definition log (e : event) (w : world) : world :=
  {| cache_files := cache_files w;
     download_files := download_files w;
     trace := trace w ++ [e];
     create_refused := create_refused w |}.

Definition set_cache_files (c : gmap string cache_data) (w : world) : world :=
  {| cache_files := c; download_files := download_files w; trace := trace w;
     create_refused := create_refused w |}.

Definition set_download_files (d : gmap string (list Byte.byte)) (w : world) : world :=
  {| cache_files := cache_files w; download_files := d; trace := trace w;
     create_refused := create_refused w |}.

(** Code that reads and writes the world and may raise. *)
Definition M (A : Type) : Type := world -> result A * world.

Definition ret {A} (a : A) : M A := fun w => (Ok a, w).

Definition raise {A} (e : exn) : M A := fun w => (Raise e, w).

Definition bind {A B} (m : M A) (k : A -> M B) : M B :=
  fun w =>
    match m w with
    | (Ok a, w') => k a w'
    | (Raise e, w') => (Raise e, w')
    end.

Definition lift {A} (r : result A) : M A := fun w => (r, w).

(** [try: body except Exception as e: handler(e)] *)
Definition try_except {A} (body : M A) (handler : exn -> M A) : M A :=
  fun w =>
    match body w with
    | (Ok a, w') => (Ok a, w')
    | (Raise e, w') => handler e w'
    end.

Declare Scope py_scope.
Delimit Scope py_scope with py.
Notation "'let*' x ':=' m 'in' k" := (bind m (fun x => k))
  (at level 10, x name, m at level 100, k at level 200) : py_scope.

(** [Path.exists], [Path.read_text] + [json.loads], and
    [Path.write_text (json.dumps ...)] on the cache directory. *)
Definition cache_exists (p : string) : M bool :=
  fun w => (Ok (bool_decide (is_Some (cache_files w !! p))), w).

Definition cache_read (p : string) : M cache_data :=
  fun w =>
    match cache_files w !! p with
    | Some d => (Ok d, w)
    | None => (Raise (FileNotFoundError p), w)
    end.

(** Whether [Path.write_text] at [p] raises, and what: an existing file
    is truncated and rewritten, a new one has to be created. *)
Definition write_text_error (w : world) (p : string) : option exn :=
  match cache_files w !! p with
  | Some _ => None
  | None => refusal_exn p <$> create_refused w p
  end.

Definition cache_write (p : string) (d : cache_data) : M unit :=
  fun w =>
    match write_text_error w p with
    | None => (Ok tt, set_cache_files (<[p := d]> (cache_files w)) w)
    | Some e => (Raise e, w)
    end.

(** [os.path.exists] on the download directory. *)
Definition path_exists (p : string) : M bool :=
  fun w => (Ok (bool_decide (is_Some (download_files w !! p))), w).

(** The contract required from the extraction engine. [extract_info] is
    [ydl.extract_info(url, download=False)]; [extract_download] is
    [ydl.extract_info(url, download=True)] under the handler's options,
    which may create files in [downloads/]; [prepare_filename] is
    [ydl.prepare_filename]. *)
Record Engine := {
  extract_info : VideoURL -> result InfoDict;
  extract_download :
    VideoURL -> string -> gmap string (list Byte.byte) ->
    result InfoDict * gmap string (list Byte.byte);
  prepare_filename : InfoDict -> string
}.

Definition call_extract_info (ydl : Engine) (video : VideoURL) : M InfoDict :=
  fun w => (extract_info ydl video, log (EvExtractInfo video) w).

Definition call_extract_download (ydl : Engine) (video : VideoURL)
    (format_id : string) : M InfoDict :=
  fun w =>
    let w1 := log (EvExtractDownload video format_id) w in
    let '(r, files) := extract_download ydl video format_id (download_files w1) in
    (r, set_download_files files w1).

End World.

(** ** MetadataCache: [get_cache_key], [get_cached_info], [save_cache_info] *)

Module MetadataCache.

Import Model World.
Local Open Scope py_scope.

(** CACHE_DIR = Path("cache"); [CACHE_DIR / f"{video_id}.json"]. *)
Definition CACHE_DIR : string := "cache".

Definition get_cache_key (video_id : string) : string :=
  Pathlib.joinpath CACHE_DIR (video_id +:+ ".json").

(** [timedelta(hours=h)] in microseconds. *)
Definition timedelta_hours (h : Z) : Z := h * 3600 * 1000000.

(** [get_cached_info(video_id)] with [datetime.utcnow()] = [utcnow]. *)
Definition get_cached_info (utcnow : Z) (video_id : string) : M (option VideoInfo) :=
  let cache_file := get_cache_key video_id in
  let* present := cache_exists cache_file in
  if (present : bool) then
    let* cache_data := cache_read cache_file in
    if utcnow - cache_time cache_data <? timedelta_hours 1
    then ret (Some (info cache_data))
    else ret None
  else ret None.

(** [save_cache_info(video_id, info)] with [datetime.utcnow()] = [utcnow]. *)
Definition save_cache_info (utcnow : Z) (video_id : string) (v : VideoInfo) : M unit :=
  let cache_data := {| cache_time := utcnow; info := v |} in
  let cache_file := get_cache_key video_id in
  cache_write cache_file cache_data.

End MetadataCache.

(** ** MetadataService: the handler of POST /api/video-info *)

Module MetadataService.

Import Url Model World MetadataCache.
Local Open Scope py_scope.

(** The two [except] clauses shared by both handlers (lines 196-201 and
    255-260): [DownloadError] becomes status 400, every other [Exception]
    becomes status 500. *)
Definition on_exception {A} (e : exn) : M A :=
  match e with
  | DownloadError _ =>
      raise (HTTPException 400 (FString "Video download error: " e))
  | _ =>
      raise (HTTPException 500 (FString "An unexpected error occurred: " e))
  end.

(** [get_video_info(video)]. [utcnow_get] and [utcnow_save] are the clock
    readings inside [get_cached_info] and [save_cache_info]. A cached
    payload is a dictionary with the seven keys of [VideoInfo], hence
    truthy at [if cached_info]. *)
Definition get_video_info (ydl : Engine) (utcnow_get utcnow_save : Z)
    (video : VideoURL) : M VideoInfo :=
  try_except
    (let* vid := lift (video_id video) in
     let* cached_info := get_cached_info utcnow_get vid in
     match cached_info with
     | Some cached => ret cached
     | None =>
         let* info := call_extract_info ydl video in
         let* fmts := lift (shape_formats (default [] (i_formats info))) in
         let* video_info := lift (make_info info fmts) in
         let* vid' := lift (video_id video) in
         let* _ := save_cache_info utcnow_save vid' video_info in
         ret video_info
     end)
    on_exception.

End MetadataService.

(** ** DownloadPipeline: the handler of POST /api/download and [iterfile] *)

Module DownloadPipeline.

Import Url Model World MetadataService.
Local Open Scope py_scope.

(** The argument of [f.read(8192)]. *)
Definition CHUNK_SIZE : nat := Z.to_nat 8192.

(** The generator object made by [iterfile()]: not yet started, suspended
    at [yield chunk] with the open file [f] (its unread bytes), or
    finished. *)
Inductive generator : Type :=
| Created
| Suspended (f : list Byte.byte)
| Finished.

(** What one [next()] gives the consumer. *)
Inductive outcome : Type :=
| Yielded (chunk : list Byte.byte)
| StopIteration
| Raised (e : exn).

(** [os.unlink(filename)] *)
Definition unlink (filename : string) (w : world)
    : result unit * world :=
  match download_files w !! filename with
  | Some _ =>
      (Ok tt, log (EvUnlink filename)
                (set_download_files (delete filename (download_files w)) w))
  | None => (Raise (FileNotFoundError filename), w)
  end.

(** The loop head [while chunk := f.read(8192)] with [f] open, run up to
    the next [yield] or to the end of the generator body. [read_fails]
    says that this [f.read] raises [OSError]; then the [with] statement
    closes [f] and the exception leaves the generator, past line 245.
    An empty [chunk] ends the loop: the [with] statement closes [f] and
    [os.unlink(filename)] runs. *)
Definition resume_loop (filename : string) (read_fails : bool)
    (f : list Byte.byte) (w : world) : outcome * generator * world :=
  if read_fails then
    (Raised (OSError "read"), Finished, log (EvClose filename) w)
  else
    match take CHUNK_SIZE f with
    | [] =>
        match unlink filename (log (EvClose filename) w) with
        | (Ok _, w') => (StopIteration, Finished, w')
        | (Raise e, w') => (Raised e, Finished, w')
        end
    | chunk => (Yielded chunk, Suspended (drop CHUNK_SIZE f), w)
    end.

(** [next(gen)] for [gen = iterfile()] of the given [filename]. *)
Definition next (filename : string) (read_fails : bool)
    (gen : generator) (w : world) : outcome * generator * world :=
  match gen with
  | Created =>
      match download_files w !! filename with
      | Some content =>
          resume_loop filename read_fails content (log (EvOpen filename) w)
      | None => (Raised (FileNotFoundError filename), Finished, w)
      end
  | Suspended f => resume_loop filename read_fails f w
  | Finished => (StopIteration, Finished, w)
  end.

(** [gen.close()], also what happens when a suspended generator is
    dropped: [GeneratorExit] is raised at the [yield], the [with]
    statement closes [f], and the exception leaves the generator body
    without reaching line 245. A generator that never started has
    nothing to run. *)
Definition close (filename : string) (gen : generator) (w : world)
    : generator * world :=
  match gen with
  | Created => (Finished, w)
  | Suspended _ => (Finished, log (EvClose filename) w)
  | Finished => (Finished, w)
  end.

(** What the consumer of the stream does, one step at a time: ask for the
    next chunk (during which the read may fail), or go away. *)
Inductive action : Type :=
| Next (read_fails : bool)
| Disconnect.

(** The streaming phase: the actions are applied in order; the stream
    ends at the first outcome that is not a chunk. *)
Fixpoint stream (filename : string) (actions : list action)
    (gen : generator) (w : world) : list outcome * generator * world :=
  match actions with
  | [] => ([], gen, w)
  | Disconnect :: _ =>
      let '(gen', w') := close filename gen w in ([], gen', w')
  | Next read_fails :: rest =>
      match next filename read_fails gen w with
      | (Yielded chunk, gen', w') =>
          let '(outs, gen'', w'') := stream filename rest gen' w' in
          (Yielded chunk :: outs, gen'', w'')
      | (out, gen', w') => ([out], gen', w')
      end
  end.

(** Full consumption, [for chunk in gen], with a bound on the number of
    [next()] calls: the chunks received, and whether the iteration ended
    ([Some StopIteration], [Some (Raised e)]) or the bound ran out
    ([None]). *)
Fixpoint consume (fuel : nat) (filename : string)
    (gen : generator) (w : world)
    : list (list Byte.byte) * option outcome * generator * world :=
  match fuel with
  | O => ([], None, gen, w)
  | S fuel' =>
      match next filename false gen w with
      | (Yielded chunk, gen', w') =>
          let '(chunks, fin, gen'', w'') := consume fuel' filename gen' w' in
          (chunk :: chunks, fin, gen'', w'')
      | (out, gen', w') => ([], Some out, gen', w')
      end
  end.

(** The double-quote character of the header's f-string. *)
Definition dquote : string := String (Ascii.ascii_of_nat 34) EmptyString.

(** [os.path.basename] *)
Definition basename (p : string) : string :=
  List.last (split "/" p) EmptyString.

(** The [StreamingResponse] that the handler returns: the generator it
    wraps (for which file, in which state) and the Content-Disposition
    header. *)
Record StreamingResponse := {
  body_filename : string;
  body_iterator : generator;
  media_type : string;
  content_disposition : string
}.

(** [value.encode("latin-1")] succeeds: every character of the string is
    at most U+00FF, that is, no byte of its UTF-8 encoding is 196 or
    more. *)
Definition latin1_encodable (s : string) : bool :=
  forallb (fun c => (Ascii.nat_of_ascii c <? 196)%nat) (list_ascii_of_string s).

(** The constructor call [StreamingResponse(iterfile(), media_type=...,
    headers=...)] (lines 247-253): it encodes every header value as
    latin-1 and raises [UnicodeEncodeError] when one cannot be. Calling
    [iterfile()] only makes the generator object. *)
Definition make_streaming_response (filename : string) : M StreamingResponse :=
  let header :=
    "attachment; filename=" +:+ dquote +:+ basename filename +:+ dquote in
  if latin1_encodable header then
    ret {| body_filename := filename;
           body_iterator := Created;
           media_type := "application/octet-stream";
           content_disposition := header |}
  else raise (UnicodeEncodeError "latin-1").

(** [download_video(video, format_id)]. *)
Definition download_video (ydl : Engine) (video : VideoURL)
    (format_id : string) : M StreamingResponse :=
  try_except
    (let* info := call_extract_download ydl video format_id in
     let filename := prepare_filename ydl info in
     let* present := path_exists filename in
     if (present : bool) then make_streaming_response filename
     else
       raise (HTTPException 404 (Text "File not found after download")))
    on_exception.

(** How many times the artifact was deleted. *)
Definition unlink_count (filename : string) (w : world) : nat :=
  length (List.filter
            (fun e => match e with
                      | EvUnlink p => String.eqb p filename
                      | _ => false
                      end)
            (trace w)).

(** The number of file objects that are open at the end of a trace. *)
Fixpoint open_handles (evs : list event) : Z :=
  match evs with
  | [] => 0
  | EvOpen _ :: rest => open_handles rest + 1
  | EvClose _ :: rest => open_handles rest - 1
  | _ :: rest => open_handles rest
  end.

End DownloadPipeline.

(** ** Concrete requests, engines and worlds used in the examples *)

Module Scenario.

Import Url Model World DownloadPipeline.

(** https://www.youtube.com/watch?v=abc *)
Definition watch_abc : VideoURL :=
  {| url := {| netloc := "www.youtube.com"; path := "/watch"; query := "v=abc" |} |}.



Definition rendition (fid : string) (e : option string) : FormatDict :=
  {| f_format_id := Some fid; f_ext := e; f_format_note := None;
     f_filesize := None; f_resolution := None; f_fps := None;
     f_vcodec := None; f_acodec := None |}.

(** An extraction result with four renditions, two of them outside the
    accepted extensions (one [3gp], one without [ext]). *)
Definition sample_info : InfoDict :=
  {| i_title := Some "clip";
     i_thumbnail := Some "https://i.ytimg.com/vi/abc/default.jpg";
     i_duration := Some 12;
     i_formats := Some [rendition "18" (Some "mp4"); rendition "17" (Some "3gp");
                        rendition "251" (Some "webm"); rendition "sb0" None];
     i_description := None; i_view_count := None; i_upload_date := None |}.

Definition artifact_path : string := "downloads/clip.mp4".

Definition artifact_bytes : list Byte.byte := [Byte.x00; Byte.x01; Byte.x02].

(** An engine that succeeds and writes the artifact. *)
Definition writing_engine : Engine :=
  {| extract_info := fun _ => Ok sample_info;
     extract_download := fun _ _ files =>
       (Ok sample_info, <[artifact_path := artifact_bytes]> files);
     prepare_filename := fun _ => artifact_path |}.

(** An engine that reports success but leaves no file at the path that
    [prepare_filename] names. *)
Definition forgetful_engine : Engine :=
  {| extract_info := fun _ => Ok sample_info;
     extract_download := fun _ _ files => (Ok sample_info, files);
     prepare_filename := fun _ => artifact_path |}.

(** The operating system of a fresh working directory: [cache/] and
    [downloads/] exist and are empty, and a file can be created directly
    inside either of them and nowhere else. *)
Definition two_directories (p : string) : option refusal :=
  match split "/" p with
  | [dir; _] =>
      if String.eqb dir "cache" || String.eqb dir "downloads" then None
      else Some NoSuchDirectory
  | _ => Some NoSuchDirectory
  end.

Definition empty_world : world :=
  {| cache_files := ∅; download_files := ∅; trace := [];
     create_refused := two_directories |}.

(** The world right after a successful download of the artifact. *)
Definition downloaded_world : world :=
  {| cache_files := ∅;
     download_files := {[artifact_path := artifact_bytes]};
     trace := [EvExtractDownload watch_abc "18"];
     create_refused := two_directories |}.

End Scenario.

(** ** The HTTP middleware [add_process_time_header] *)

Module Middleware.

Import RateLimiter World.

(** [JSONResponse(status_code=..., content={"detail": ...})] *)
Record JSONResponse := { status_code : Z; detail : string }.

(** The two pieces of state a request can touch: the module-level
    [rate_limit_store] and everything outside the interpreter. *)
Record app_state := {
  rate_limit_store : gmap string (list Z);
  outside : world
}.

(** [add_process_time_header(request, call_next)] (lines 128-136).
    [client_host] is [request.client.host]; [call_next] is the rest of the
    application applied to the request, whatever route it reaches. *)
Definition add_process_time_header {R : Type} (cfg : config)
    (current_time : Z) (client_host : string)
    (call_next : world -> R * world) (st : app_state)
    : (JSONResponse + R) * app_state :=
  let '(allowed, store') :=
    check_rate_limit cfg current_time client_host (rate_limit_store st) in
  if negb allowed then
    (inl {| status_code := 429;
            detail := "Too many requests. Please try again later." |},
     {| rate_limit_store := store'; outside := outside st |})
  else
    let '(response, w') := call_next (outside st) in
    (inr response, {| rate_limit_store := store'; outside := w' |}).

End Middleware.

(** ** Further engines and extraction results for the examples *)

Module MoreScenarios.

Import Url Model World.

(** An engine whose every call raises [DownloadError]. *)
Definition unavailable_engine : Engine :=
  {| extract_info := fun _ => Raise (DownloadError "Video unavailable");
     extract_download := fun _ _ files =>
       (Raise (DownloadError "Video unavailable"), files);
     prepare_filename := fun _ => Scenario.artifact_path |}.

(** An extraction result in which one mp4 rendition has no [format_id]. *)
Definition info_without_format_id : InfoDict :=
  {| i_title := Some "clip";
     i_thumbnail := Some "https://i.ytimg.com/vi/abc/default.jpg";
     i_duration := Some 12;
     i_formats :=
       Some [Scenario.rendition "18" (Some "mp4");
             {| f_format_id := None; f_ext := Some "mp4"; f_format_note := None;
                f_filesize := None; f_resolution := None; f_fps := None;
                f_vcodec := None; f_acodec := None |}];
     i_description := None; i_view_count := None; i_upload_date := None |}.

Definition sloppy_engine : Engine :=
  {| extract_info := fun _ => Ok info_without_format_id;
     extract_download := fun _ _ files => (Ok info_without_format_id, files);
     prepare_filename := fun _ => Scenario.artifact_path |}.

(** https://youtu.be/a/b : the identifier is [a/b]. *)
Definition short_link_a_b : VideoURL :=
  {| url := {| netloc := "youtu.be"; path := "/a/b"; query := "" |} |}.

(** An artifact whose name has a character above U+00FF. *)
Definition euro_path : string := "downloads/€.mp4".

(** An engine that succeeds and writes that artifact. *)
Definition euro_engine : Engine :=
  {| extract_info := fun _ => Ok Scenario.sample_info;
     extract_download := fun _ _ files =>
       (Ok Scenario.sample_info, <[euro_path := Scenario.artifact_bytes]> files);
     prepare_filename := fun _ => euro_path |}.

End MoreScenarios.

(** ** The calls that a run let through *)

Module Accepted.

(** The times of the calls whose decision was [true], given the decisions
    and the call times of one identity in call order. *)
Fixpoint accepted_times (oks : list bool) (times : list Z) : list Z :=
  match oks, times with
  | true :: oks', t :: times' => t :: accepted_times oks' times'
  | false :: oks', _ :: times' => accepted_times oks' times'
  | _, _ => []
  end.

End Accepted.

(** ** What a consumer has in hand after a streaming phase *)

Module Consumer.

Import DownloadPipeline.

(** The bytes of the chunks among the outcomes, in order. *)
Fixpoint received (outs : list outcome) : list Byte.byte :=
  match outs with
  | [] => []
  | Yielded chunk :: rest => chunk ++ received rest
  | _ :: rest => received rest
  end.

End Consumer.

(** * Properties *)

(** ** RateLimiter *)

Section RateLimiterFacts.

Import RateLimiter.

Variable cfg : config.

Lemma in_window_purge now stamps :
  List.filter (in_window cfg now) stamps = purge cfg now stamps.
Proof. reflexivity. Qed.

(** One call, seen from the timestamp list of the calling identity. *)
Lemma check_rate_limit_admission now ip (store : gmap string (list Z)) :
  check_rate_limit cfg now ip store =
    ((admission cfg now (default [] (store !! ip))).1,
     <[ip := (admission cfg now (default [] (store !! ip))).2]> store).
Proof.
  unfold check_rate_limit, admission.
  destruct (store !! ip) as [stamps|] eqn:Hip; simpl.
  - rewrite !lookup_total_insert_eq.
    rewrite (lookup_total_correct _ _ _ Hip), in_window_purge.
    rewrite Z.geb_leb.
    destruct (max_requests cfg <=? Z.of_nat (length (purge cfg now stamps)));
      simpl; [done|].
    by rewrite insert_insert_eq.
  - rewrite !lookup_total_insert_eq. simpl.
    rewrite Z.geb_leb.
    destruct (max_requests cfg <=? Z.of_nat 0); simpl;
      by rewrite !insert_insert_eq.
Qed.

Lemma check_rate_limit_other now ip who (store : gmap string (list Z)) :
  ip ≠ who -> (check_rate_limit cfg now ip store).2 !! who = store !! who.
Proof.
  intros Hne. rewrite check_rate_limit_admission. simpl.
  by rewrite lookup_insert_ne.
Qed.

Lemma check_rate_limit_entry now ip (store : gmap string (list Z)) :
  (check_rate_limit cfg now ip store).2 !! ip =
    Some (admission cfg now (default [] (store !! ip))).2.
Proof. rewrite check_rate_limit_admission. simpl. by rewrite lookup_insert_eq. Qed.

Lemma purge_length now stamps :
  (length (purge cfg now stamps) <= length stamps)%nat.
Proof. apply filter_length_le. Qed.

Lemma purge_in_window now stamps :
  Forall (fun t => now - t < window_seconds cfg) (purge cfg now stamps).
Proof.
  apply List.Forall_forall. intros t Ht.
  apply filter_In in Ht as [_ Ht]. by apply Z.ltb_lt.
Qed.

(** A run of one identity follows [admission_seq] on that identity's list and
    leaves every other identity's entry alone. *)
Lemma run_single ip times : forall store : gmap string (list Z),
  (run cfg (map (fun t => (ip, t)) times) store).1 =
    (admission_seq cfg times (default [] (store !! ip))).1
  /\ (run cfg (map (fun t => (ip, t)) times) store).2 !!! ip =
       (admission_seq cfg times (default [] (store !! ip))).2
  /\ forall other, other ≠ ip ->
       (run cfg (map (fun t => (ip, t)) times) store).2 !! other = store !! other.
Proof.
  induction times as [|now rest IH]; intros store; simpl.
  - split; [done|]. split; [|done].
    unfold lookup_total, map_lookup_total. by destruct (store !! ip).
  - rewrite check_rate_limit_admission.
    destruct (admission cfg now (default [] (store !! ip))) as [ok stamps'] eqn:Had.
    simpl.
    specialize (IH (<[ip := stamps']> store)).
    rewrite lookup_insert_eq in IH. simpl in IH.
    destruct (run cfg (map (fun t => (ip, t)) rest) (<[ip := stamps']> store))
      as [oks store''] eqn:Hrun.
    destruct (admission_seq cfg rest stamps') as [oks' stamps''] eqn:Hall.
    simpl in *. destruct IH as (IH1 & IH2 & IH3).
    split; [by rewrite IH1|]. split; [done|].
    intros other Hne. rewrite IH3 by done. by rewrite lookup_insert_ne.
Qed.

(** The decisions of one identity inside any interleaving are those of
    [admission_seq] on its own call times and its own stored list. *)
Lemma decisions_for_own who calls : forall store : gmap string (list Z),
  decisions_for cfg who calls store =
    (admission_seq cfg (map snd (calls_of who calls)) (default [] (store !! who))).1.
Proof.
  induction calls as [|[ip t] rest IH]; intros store; simpl; [done|].
  destruct (check_rate_limit cfg t ip store) as [ok store'] eqn:Hc.
  pose proof (check_rate_limit_admission t ip store) as Hadm. rewrite Hc in Hadm.
  injection Hadm as Hok Hstore.
  destruct (decide (ip = who)) as [->|Hne].
  - rewrite bool_decide_eq_true_2 by done. simpl.
    destruct (admission cfg t (default [] (store !! who))) as [ok' stamps'] eqn:Had.
    simpl in *. subst ok store'.
    rewrite IH, lookup_insert_eq. simpl.
    by destruct (admission_seq cfg (map snd (calls_of who rest)) stamps').
  - rewrite bool_decide_eq_false_2 by done.
    rewrite IH. subst store'. by rewrite lookup_insert_ne.
Qed.

Lemma reachable_bounded (store : gmap string (list Z)) :
  0 <= max_requests cfg ->
  reachable cfg store ->
  forall ip, Z.of_nat (length (store !!! ip)) <= max_requests cfg.
Proof.
  intros Hq Hr. induction Hr as [|store t ip' Hr IH]; intros ip.
  - rewrite lookup_total_empty. simpl. lia.
  - rewrite check_rate_limit_admission. simpl.
    destruct (decide (ip' = ip)) as [->|Hne].
    + rewrite lookup_total_insert_eq. unfold admission.
      destruct (Z.of_nat (length (purge cfg t (default [] (store !! ip))))
                  >=? max_requests cfg) eqn:Hge; simpl.
      * specialize (IH ip).
        pose proof (purge_length t (default [] (store !! ip))) as Hle.
        rewrite lookup_total_alt in IH.
        destruct (store !! ip); simpl in *; lia.
      * rewrite length_app. simpl. rewrite Z.geb_leb in Hge.
        apply Z.leb_gt in Hge. lia.
    + rewrite lookup_total_insert_ne by done. apply IH.
Qed.

End RateLimiterFacts.

(** C2. Every call of [check_rate_limit] first purges the caller's
    timestamps that have left the window (those with
    [current_time - t >= window_seconds]); if at least [max_requests]
    remain it returns false and stores only the purged list, otherwise it
    appends the current time and returns true. A sequence of calls of one
    identity therefore follows the purge-check-append rule
    [admission_seq], in its decisions and in the list it leaves. With
    quota 2 and a 60 second window, calls of "X" at times 0, 1, 2 are
    admitted, admitted, rejected. *)
Theorem check_rate_limit_purge_check_append :
  (forall cfg now ip (store : gmap string (list Z)),
     let remaining :=
       List.filter (fun t => now - t <? RateLimiter.window_seconds cfg)
         (default [] (store !! ip)) in
     RateLimiter.check_rate_limit cfg now ip store =
       if Z.of_nat (length remaining) >=? RateLimiter.max_requests cfg
       then (false, <[ip := remaining]> store)
       else (true, <[ip := remaining ++ [now]]> store))
  /\ (forall cfg ip times (store : gmap string (list Z)),
        let calls := map (fun t => (ip, t)) times in
        (RateLimiter.run cfg calls store).1 =
          (RateLimiter.admission_seq cfg times (default [] (store !! ip))).1
        /\ (RateLimiter.run cfg calls store).2 !!! ip =
             (RateLimiter.admission_seq cfg times (default [] (store !! ip))).2)
  /\ (RateLimiter.run
        {| RateLimiter.window_seconds := 60; RateLimiter.max_requests := 2 |}
        [("X", 0); ("X", 1); ("X", 2)] ∅).1 = [true; true; false].
Proof.
  split; [|split].
  - intros cfg now ip store remaining.
    rewrite check_rate_limit_admission. unfold RateLimiter.admission.
    fold (RateLimiter.purge cfg now (default [] (store !! ip))).
    change (RateLimiter.purge cfg now (default [] (store !! ip))) with remaining.
    by destruct (Z.of_nat (length remaining) >=? RateLimiter.max_requests cfg).
  - intros cfg ip times store calls.
    destruct (run_single cfg ip times store) as (Hdec & Hlist & _). done.
  - vm_compute. reflexivity.
Qed.

(** C9. The decisions that identity B receives in a run depend only on
    B's own calls and B's own stored timestamps: two runs that start from
    stores with the same entry for B and contain the same calls of B, in
    any interleaving with calls of other identities and with any state
    accumulated for those identities, give B the same decisions. *)
Theorem rate_limit_noninterference cfg (B : string)
    (calls1 calls2 : list (string * Z))
    (store1 store2 : gmap string (list Z)) :
  store1 !! B = store2 !! B ->
  RateLimiter.calls_of B calls1 = RateLimiter.calls_of B calls2 ->
  RateLimiter.decisions_for cfg B calls1 store1 =
    RateLimiter.decisions_for cfg B calls2 store2.
Proof.
  intros Hentry Hcalls.
  rewrite !decisions_for_own. by rewrite Hentry, Hcalls.
Qed.

Lemma rate_limit_noninterference_witness :
  RateLimiter.decisions_for RateLimiter.RATE_LIMIT "B"
    [("A", 0); ("B", 1); ("A", 2); ("B", 3)] {["A" := [-5; -4]]} =
  RateLimiter.decisions_for RateLimiter.RATE_LIMIT "B"
    [("B", 1); ("B", 3)] ∅.
Proof.
  apply (rate_limit_noninterference RateLimiter.RATE_LIMIT "B").
  - vm_compute. reflexivity.
  - vm_compute. reflexivity.
Defined.

(** C10. In every store that the program can reach, and for a
    configuration with a non-negative quota and a positive window, the
    list stored for the caller right after a call has at most
    [max_requests] entries, every entry [t] satisfies
    [current_time - t < window_seconds]; an admitted call leaves the
    purged list with the current time appended, a rejected call leaves the
    purged list, which is no longer than the list before the call. *)
Theorem check_rate_limit_invariant cfg now ip
    (store : gmap string (list Z)) :
  0 <= RateLimiter.max_requests cfg ->
  0 < RateLimiter.window_seconds cfg ->
  RateLimiter.reachable cfg store ->
  let after := (RateLimiter.check_rate_limit cfg now ip store).2 !!! ip in
  Z.of_nat (length after) <= RateLimiter.max_requests cfg
  /\ Forall (fun t => now - t < RateLimiter.window_seconds cfg) after
  /\ (if (RateLimiter.check_rate_limit cfg now ip store).1
      then after = RateLimiter.purge cfg now (store !!! ip) ++ [now]
      else after = RateLimiter.purge cfg now (store !!! ip)
           /\ (length after <= length (store !!! ip))%nat).
Proof.
  intros Hq Hw Hr after. split; [|split].
  - apply (reachable_bounded cfg _ Hq (RateLimiter.reachable_call cfg _ now ip Hr)).
  - subst after. rewrite check_rate_limit_admission. simpl.
    rewrite lookup_total_insert_eq. unfold RateLimiter.admission.
    destruct (Z.of_nat (length (RateLimiter.purge cfg now (default [] (store !! ip))))
                >=? RateLimiter.max_requests cfg); simpl.
    + apply purge_in_window.
    + apply Forall_app. split; [apply purge_in_window|].
      constructor; [lia|constructor].
  - subst after. rewrite check_rate_limit_admission. simpl.
    rewrite lookup_total_insert_eq, (lookup_total_alt store).
    change (@inhabitant (list Z) _) with (@nil Z).
    unfold RateLimiter.admission.
    destruct (Z.of_nat (length (RateLimiter.purge cfg now (default [] (store !! ip))))
                >=? RateLimiter.max_requests cfg); simpl; [|done].
    split; [done|]. apply purge_length.
Qed.

Lemma check_rate_limit_invariant_witness :
  let store := (RateLimiter.check_rate_limit RateLimiter.RATE_LIMIT 0 "X" ∅).2 in
  let after :=
    (RateLimiter.check_rate_limit RateLimiter.RATE_LIMIT 5 "X" store).2 !!! "X" in
  Z.of_nat (length after) <= 100
  /\ Forall (fun t => 5 - t < 3600) after
  /\ (if (RateLimiter.check_rate_limit RateLimiter.RATE_LIMIT 5 "X" store).1
      then after = RateLimiter.purge RateLimiter.RATE_LIMIT 5 (store !!! "X") ++ [5]
      else after = RateLimiter.purge RateLimiter.RATE_LIMIT 5 (store !!! "X")
           /\ (length after <= length (store !!! "X"))%nat).
Proof.
  apply (check_rate_limit_invariant RateLimiter.RATE_LIMIT 5 "X").
  - simpl. lia.
  - simpl. lia.
  - apply RateLimiter.reachable_call, RateLimiter.reachable_init.
Defined.

(** ** MetadataCache *)

Section MetadataCacheFacts.

Import Model World MetadataCache.

(** A lookup never writes: whatever it returns, the world is the same. *)
Lemma get_cached_info_pure utcnow video_id (w : world) :
  (get_cached_info utcnow video_id w).2 = w.
Proof.
  unfold get_cached_info, bind, cache_exists, cache_read, ret.
  destruct (cache_files w !! get_cache_key video_id) as [d|] eqn:Hd.
  - rewrite bool_decide_eq_true_2 by eauto. rewrite Hd.
    by destruct (utcnow - cache_time d <? timedelta_hours 1).
  - rewrite bool_decide_eq_false_2; [done|].
    intros [d Hd']. congruence.
Qed.

Lemma get_cached_info_entry utcnow video_id (w : world) d :
  cache_files w !! get_cache_key video_id = Some d ->
  get_cached_info utcnow video_id w =
    (Ok (if utcnow - cache_time d <? timedelta_hours 1
         then Some (info d) else None), w).
Proof.
  intros Hd. unfold get_cached_info, bind, cache_exists, cache_read, ret.
  rewrite bool_decide_eq_true_2 by eauto. rewrite Hd.
  by destruct (utcnow - cache_time d <? timedelta_hours 1).
Qed.

Lemma get_cached_info_absent utcnow video_id (w : world) :
  cache_files w !! get_cache_key video_id = None ->
  get_cached_info utcnow video_id w = (Ok None, w).
Proof.
  intros Hd. unfold get_cached_info, bind, cache_exists, ret.
  rewrite bool_decide_eq_false_2; [done|].
  intros [d Hd']. congruence.
Qed.

Lemma write_text_error_existing (w : world) p d :
  cache_files w !! p = Some d -> write_text_error w p = None.
Proof. intros Hd. unfold write_text_error. by rewrite Hd. Qed.

(** A save whose write the operating system accepts. *)
Lemma save_cache_info_entry utcnow video_id v (w : world) :
  write_text_error w (get_cache_key video_id) = None ->
  save_cache_info utcnow video_id v w =
    (Ok tt,
     set_cache_files
       (<[get_cache_key video_id := {| cache_time := utcnow; info := v |}]>
          (cache_files w)) w).
Proof. intros Hw. unfold save_cache_info, cache_write. by rewrite Hw. Qed.

(** A save whose write raises changes nothing. *)
Lemma save_cache_info_refused utcnow video_id v (w : world) e :
  write_text_error w (get_cache_key video_id) = Some e ->
  save_cache_info utcnow video_id v w = (Raise e, w).
Proof. intros Hw. unfold save_cache_info, cache_write. by rewrite Hw. Qed.

End MetadataCacheFacts.

(** C5. When the entry of an identifier was written at [fetchedAt] and a
    lookup happens at a time [now] with [now - fetchedAt >= ttl] (one
    hour), the lookup returns absent and changes nothing: the stale entry
    is still in the store afterwards, and it stays there until a later
    [save_cache_info] for the identifier replaces it. *)
Theorem get_cached_info_stale_absent_kept (w : World.world)
    (video_id : string) (entry : World.cache_data) (now : Z) :
  World.cache_files w !! MetadataCache.get_cache_key video_id = Some entry ->
  now - World.cache_time entry >= MetadataCache.timedelta_hours 1 ->
  MetadataCache.get_cached_info now video_id w = (Ok None, w)
  /\ World.cache_files (MetadataCache.get_cached_info now video_id w).2
       !! MetadataCache.get_cache_key video_id = Some entry
  /\ forall later v,
       World.cache_files
         (MetadataCache.save_cache_info later video_id v
            (MetadataCache.get_cached_info now video_id w).2).2
         !! MetadataCache.get_cache_key video_id =
       Some {| World.cache_time := later; World.info := v |}.
Proof.
  intros Hentry Hstale.
  rewrite (get_cached_info_entry now video_id w entry Hentry).
  assert ((now - World.cache_time entry <? MetadataCache.timedelta_hours 1) = false)
    as -> by (apply Z.ltb_ge; lia).
  simpl. split; [done|]. split; [done|].
  intros later v.
  rewrite (save_cache_info_entry later video_id v w
             (write_text_error_existing w _ entry Hentry)).
  simpl. by rewrite lookup_insert_eq.
Qed.

Lemma get_cached_info_stale_absent_kept_witness :
  let v := {| Model.title := "clip"; Model.thumbnail := "t.jpg";
              Model.duration := 12; Model.formats := [];
              Model.description := None; Model.view_count := None;
              Model.upload_date := None |} in
  let w := (MetadataCache.save_cache_info 0 "abc" v Scenario.empty_world).2 in
  MetadataCache.get_cached_info 3600000000 "abc" w = (Ok None, w)
  /\ World.cache_files (MetadataCache.get_cached_info 3600000000 "abc" w).2
       !! MetadataCache.get_cache_key "abc" =
     Some {| World.cache_time := 0; World.info := v |}
  /\ forall later v',
       World.cache_files
         (MetadataCache.save_cache_info later "abc" v'
            (MetadataCache.get_cached_info 3600000000 "abc" w).2).2
         !! MetadataCache.get_cache_key "abc" =
       Some {| World.cache_time := later; World.info := v' |}.
Proof.
  intros v w.
  apply (get_cached_info_stale_absent_kept w "abc"
           {| World.cache_time := 0; World.info := v |} 3600000000).
  - vm_compute. reflexivity.
  - vm_compute. discriminate.
Defined.

(** C8, as the code has it. When the operating system accepts the write
    of the identifier's cache file (the file exists already, or it can be
    created: its directory exists, its name is not too long, ...), a
    [save_cache_info(id, v)] succeeds and a [get_cached_info(id)] less
    than one hour later returns [v], for every payload and prior state of
    the cache. *)
Theorem save_then_get_cached_info (w : World.world) (video_id : string)
    (v : Model.VideoInfo) (t_put t_get : Z) :
  World.write_text_error w (MetadataCache.get_cache_key video_id) = None ->
  t_get - t_put < MetadataCache.timedelta_hours 1 ->
  (MetadataCache.save_cache_info t_put video_id v w).1 = Ok tt
  /\ (MetadataCache.get_cached_info t_get video_id
        (MetadataCache.save_cache_info t_put video_id v w).2).1 = Ok (Some v).
Proof.
  intros Hwrite Hfresh.
  rewrite (save_cache_info_entry t_put video_id v w Hwrite).
  simpl. split; [done|].
  erewrite get_cached_info_entry by (simpl; apply lookup_insert_eq).
  simpl. by apply Z.ltb_lt in Hfresh as ->.
Qed.

Lemma save_then_get_cached_info_witness :
  let v := {| Model.title := "clip"; Model.thumbnail := "t.jpg";
              Model.duration := 12; Model.formats := [];
              Model.description := None; Model.view_count := None;
              Model.upload_date := None |} in
  (MetadataCache.save_cache_info 7 "abc" v Scenario.empty_world).1 = Ok tt
  /\ (MetadataCache.get_cached_info 7 "abc"
        (MetadataCache.save_cache_info 7 "abc" v Scenario.empty_world).2).1
     = Ok (Some v).
Proof.
  intros v.
  apply (save_then_get_cached_info Scenario.empty_world "abc" v 7 7).
  - vm_compute. reflexivity.
  - vm_compute. reflexivity.
Defined.

(** C8 as stated fails at the identifier [a/b] (the identifier of
    https://youtu.be/a/b) in a working directory that holds [cache/] and
    nothing below it: the cache file is [cache/a/b.json], the directory
    [cache/a] does not exist, [write_text] raises [FileNotFoundError],
    nothing is stored, and the lookup that follows returns nothing. *)
Lemma save_cache_info_nested_id_raises :
  let v := {| Model.title := "clip"; Model.thumbnail := "t.jpg";
              Model.duration := 12; Model.formats := [];
              Model.description := None; Model.view_count := None;
              Model.upload_date := None |} in
  MetadataCache.get_cache_key "a/b" = "cache/a/b.json"
  /\ MetadataCache.save_cache_info 7 "a/b" v Scenario.empty_world
     = (Raise (FileNotFoundError "cache/a/b.json"), Scenario.empty_world)
  /\ (MetadataCache.get_cached_info 7 "a/b"
        (MetadataCache.save_cache_info 7 "a/b" v Scenario.empty_world).2).1
     = Ok None.
Proof.
  intros v. split; [vm_compute; reflexivity|]. split.
  - reflexivity.
  - vm_compute. reflexivity.
Qed.

(** ** MetadataService *)

Section MetadataServiceFacts.

Import Url Model World MetadataCache MetadataService.

Lemma dict_of_raises items : forall acc e,
  dict_of items acc = Raise e -> exists msg, e = ValueError msg.
Proof.
  induction items as [|item rest IH]; intros acc e; simpl; [discriminate|].
  destruct item as [|k [|v [|x xs]]]; try (intros [= <-]; eauto); [].
  apply IH.
Qed.

(** [video_id] raises nothing but [ValueError]. *)
Lemma video_id_raises video e :
  video_id video = Raise e -> exists msg, e = ValueError msg.
Proof.
  unfold video_id.
  destruct (contains "youtu.be" (netloc (url video))); [discriminate|].
  destruct (contains "youtube.com" (netloc (url video)));
    [|intros [= <-]; eauto].
  destruct (dict_of _ ∅) as [q|e'] eqn:Hd; [discriminate|].
  intros [= <-]. by apply dict_of_raises in Hd.
Qed.

Lemma split_length sep s : length (split sep s) = S (count sep s).
Proof.
  induction s as [|c rest IH]; simpl; [done|].
  destruct (Ascii.eqb c sep); simpl; [by rewrite IH|].
  destruct (split sep rest); simpl in *; [discriminate|done].
Qed.

Lemma contains_char_count c s :
  contains (String c EmptyString) s = true <-> (0 < count c s)%nat.
Proof.
  induction s as [|a rest IH]; simpl; [split; [discriminate|lia]|].
  destruct (ascii_dec c a) as [<-|Hne].
  - rewrite Ascii.eqb_refl. destruct rest; simpl; split; (lia || done).
  - assert (Ascii.eqb a c = false) as ->
      by (apply Ascii.eqb_neq; congruence).
    simpl. apply IH.
Qed.

Lemma dict_of_raises_iff items : forall acc,
  (exists e, dict_of items acc = Raise e)
  <-> Exists (fun item => length item <> 2%nat) items.
Proof.
  induction items as [|item rest IH]; intros acc; simpl.
  - split; [intros [e He]; discriminate|intros H; inversion H].
  - destruct item as [|k [|v [|x xs]]].
    + split; [intros _; left; simpl; lia|eauto].
    + split; [intros _; left; simpl; lia|eauto].
    + rewrite IH. split; [by right|].
      intros H. inversion H as [? ? Hlen|]; [simpl in Hlen; lia|done].
    + split; [intros _; left; simpl; lia|eauto].
Qed.

(** When [video_id] raises, in terms of the URL: the host names neither
    of the two sites, or it names youtube.com and some component of the
    query holds two or more "=" signs. *)
Lemma video_id_raises_iff video :
  (exists e, video_id video = Raise e)
  <-> contains "youtu.be" (netloc (url video)) = false
      /\ (contains "youtube.com" (netloc (url video)) = false
          \/ Exists (fun q => (2 <= count "=" q)%nat)
               (split "&" (query (url video)))).
Proof.
  unfold video_id.
  destruct (contains "youtu.be" (netloc (url video)));
    [split; [intros [e He]; discriminate|intros [? _]; discriminate]|].
  destruct (contains "youtube.com" (netloc (url video)));
    [|split; [auto|eauto]].
  set (qs := split "&" (query (url video))).
  transitivity (exists e,
    dict_of (map (split "=") (List.filter (contains "=") qs)) ∅ = Raise e).
  { destruct (dict_of _ ∅) as [d|e0]; split; intros [e1 He];
      try discriminate; eauto. }
  rewrite dict_of_raises_iff, !List.Exists_exists.
  split.
  - intros (item & Hin & Hlen). split; [done|]. right.
    apply in_map_iff in Hin as (q & <- & Hq).
    apply filter_In in Hq as [Hq Heq].
    exists q. split; [done|].
    rewrite split_length in Hlen.
    apply (contains_char_count "=" q) in Heq. lia.
  - intros [_ [?|(q & Hq & Hcount)]]; [discriminate|].
    exists (split "=" q). split.
    + apply in_map_iff. exists q. split; [done|].
      apply filter_In. split; [done|].
      apply (contains_char_count "=" q). lia.
    + rewrite split_length. lia.
Qed.




End MetadataServiceFacts.






(** ** DownloadPipeline *)

Section DownloadPipelineFacts.

Import Url Model World MetadataService DownloadPipeline.

Lemma CHUNK_SIZE_pos : (0 < CHUNK_SIZE)%nat.
Proof. unfold CHUNK_SIZE. lia. Qed.

Local Opaque CHUNK_SIZE.

Lemma take_chunk_nil (f : list Byte.byte) : take CHUNK_SIZE f = [] -> f = [].
Proof.
  pose proof CHUNK_SIZE_pos as Hpos.
  destruct f as [|b f]; [done|].
  destruct CHUNK_SIZE; [lia|discriminate].
Qed.

Lemma unlink_count_log_close filename p (w : world) :
  unlink_count filename (log (EvClose p) w) = unlink_count filename w.
Proof.
  unfold unlink_count, log. simpl.
  rewrite List.filter_app, length_app. simpl. lia.
Qed.

Lemma unlink_count_log_unlink filename (w : world) :
  unlink_count filename (log (EvUnlink filename) w) = S (unlink_count filename w).
Proof.
  unfold unlink_count, log. simpl.
  rewrite List.filter_app, length_app. simpl.
  rewrite String.eqb_refl. simpl. lia.
Qed.

(** Iterating a suspended generator to the end: the chunks are the unread
    bytes cut into pieces of at most [CHUNK_SIZE], the iteration ends with
    [StopIteration] within [length f + 1] calls of [next], and the last
    call deletes the artifact, once. *)
Lemma consume_suspended filename : forall fuel (f : list Byte.byte) (w : world),
  (length f < fuel)%nat ->
  is_Some (download_files w !! filename) ->
  exists chunks w',
    consume fuel filename (Suspended f) w
      = (chunks, Some StopIteration, Finished, w')
    /\ concat chunks = f
    /\ Forall (fun c => c <> [] /\ (length c <= CHUNK_SIZE)%nat) chunks
    /\ download_files w' !! filename = None
    /\ unlink_count filename w' = S (unlink_count filename w).
Proof.
  induction fuel as [|fuel IH]; intros f w Hfuel [content Hfile]; [lia|].
  simpl. unfold resume_loop.
  destruct (take CHUNK_SIZE f) as [|b chunk] eqn:Htake.
  - apply take_chunk_nil in Htake as ->.
    unfold unlink. simpl. rewrite Hfile.
    eexists [], _. split; [done|]. split; [done|]. split; [done|].
    split.
    + simpl. apply lookup_delete_eq.
    + rewrite unlink_count_log_unlink. f_equal.
      apply (unlink_count_log_close filename filename w).
  - assert (length (drop CHUNK_SIZE f) < fuel)%nat as Hrest.
    { rewrite length_drop. pose proof CHUNK_SIZE_pos.
      destruct f; [by rewrite take_nil in Htake|]. simpl in *. lia. }
    destruct (IH (drop CHUNK_SIZE f) w Hrest (ex_intro _ content Hfile))
      as (chunks & w' & Hc & Hcat & Hall & Hgone & Hcount).
    rewrite Hc. eexists (_ :: chunks), w'. split; [done|].
    split; [|split; [|done]].
    + rewrite concat_cons, Hcat, <- Htake. apply take_drop.
    + constructor; [|done]. split; [done|].
      rewrite <- Htake, length_take. lia.
Qed.

(** The first [next()] opens the file and enters the loop. *)
Lemma consume_created filename fuel content (w : world) :
  download_files w !! filename = Some content ->
  consume (S fuel) filename Created w =
    consume (S fuel) filename (Suspended content) (log (EvOpen filename) w).
Proof. intros Hfile. simpl. by rewrite Hfile. Qed.

Lemma unlink_count_log_open filename p (w : world) :
  unlink_count filename (log (EvOpen p) w) = unlink_count filename w.
Proof.
  unfold unlink_count, log. simpl.
  rewrite List.filter_app, length_app. simpl. lia.
Qed.

(** Closing the generator deletes nothing, whatever its state. *)
Lemma close_keeps_artifact filename gen (w : world) :
  download_files (close filename gen w).2 = download_files w
  /\ unlink_count filename (close filename gen w).2 = unlink_count filename w.
Proof.
  destruct gen; simpl; split; try done.
  apply unlink_count_log_close.
Qed.

(** A read that raises ends the generator and deletes nothing. *)
Lemma next_read_error_keeps_artifact filename f (w : world) :
  (next filename true (Suspended f) w).1 = (Raised (OSError "read"), Finished)
  /\ download_files (next filename true (Suspended f) w).2 = download_files w
  /\ unlink_count filename (next filename true (Suspended f) w).2
       = unlink_count filename w.
Proof.
  simpl. split; [done|]. split; [done|]. apply unlink_count_log_close.
Qed.

Lemma latin1_encodable_app (a b : string) :
  latin1_encodable (a +:+ b) = latin1_encodable a && latin1_encodable b.
Proof.
  unfold latin1_encodable.
  induction a as [|c a IH]; [done|].
  change (String c a +:+ b) with (String c (a +:+ b)).
  cbn [list_ascii_of_string forallb]. by rewrite IH, andb_assoc.
Qed.

(** The header can be encoded exactly when the base name can. *)
Lemma header_encodable filename :
  latin1_encodable
    ("attachment; filename=" +:+ dquote +:+ basename filename +:+ dquote)
  = latin1_encodable (basename filename).
Proof.
  rewrite !latin1_encodable_app.
  change (latin1_encodable "attachment; filename=") with true.
  change (latin1_encodable dquote) with true.
  by rewrite andb_true_r.
Qed.

(** The constructor call, by whether the base name can be encoded. *)
Lemma make_streaming_response_cases filename (w : world) :
  make_streaming_response filename w =
    if latin1_encodable (basename filename)
    then (Ok {| body_filename := filename;
                body_iterator := Created;
                media_type := "application/octet-stream";
                content_disposition :=
                  "attachment; filename=" +:+ dquote
                    +:+ basename filename +:+ dquote |}, w)
    else (Raise (UnicodeEncodeError "latin-1"), w).
Proof.
  unfold make_streaming_response. rewrite header_encodable.
  by destruct (latin1_encodable (basename filename)).
Qed.

(** The handler when the engine succeeds, the file is there and its base
    name can be encoded as latin-1. *)
Lemma download_video_present ydl video format_id (w : world) info files :
  extract_download ydl video format_id (download_files w) = (Ok info, files) ->
  is_Some (files !! prepare_filename ydl info) ->
  latin1_encodable (basename (prepare_filename ydl info)) = true ->
  download_video ydl video format_id w =
    (Ok {| body_filename := prepare_filename ydl info;
           body_iterator := Created;
           media_type := "application/octet-stream";
           content_disposition :=
             "attachment; filename=" +:+ dquote
               +:+ basename (prepare_filename ydl info) +:+ dquote |},
     set_download_files files (log (EvExtractDownload video format_id) w)).
Proof.
  intros Heng Hfile Henc.
  unfold download_video, try_except, bind, call_extract_download, path_exists.
  cbn [download_files log set_download_files]. rewrite Heng.
  cbn [download_files log set_download_files].
  rewrite bool_decide_eq_true_2 by done.
  by rewrite make_streaming_response_cases, Henc.
Qed.

(** The handler when the engine succeeds and the file is there, but its
    base name has a character above U+00FF: the constructor call of line
    247 raises inside the [try], and line 258 turns that into 500. The
    artifact is not touched. *)
Lemma download_video_unencodable ydl video format_id (w : world) info files :
  extract_download ydl video format_id (download_files w) = (Ok info, files) ->
  is_Some (files !! prepare_filename ydl info) ->
  latin1_encodable (basename (prepare_filename ydl info)) = false ->
  download_video ydl video format_id w =
    (Raise (HTTPException 500
             (FString "An unexpected error occurred: "
                (UnicodeEncodeError "latin-1"))),
     set_download_files files (log (EvExtractDownload video format_id) w)).
Proof.
  intros Heng Hfile Henc.
  unfold download_video, try_except, bind, call_extract_download, path_exists.
  cbn [download_files log set_download_files]. rewrite Heng.
  cbn [download_files log set_download_files].
  rewrite bool_decide_eq_true_2 by done.
  by rewrite make_streaming_response_cases, Henc.
Qed.

(** The handler when the engine succeeds and the file is not there: the
    404 raised at line 238 is caught by [except Exception] at line 258. *)
Lemma download_video_absent ydl video format_id (w : world) info files :
  extract_download ydl video format_id (download_files w) = (Ok info, files) ->
  files !! prepare_filename ydl info = None ->
  download_video ydl video format_id w =
    (Raise (HTTPException 500
             (FString "An unexpected error occurred: "
                (HTTPException 404 (Text "File not found after download")))),
     set_download_files files (log (EvExtractDownload video format_id) w)).
Proof.
  intros Heng Hfile.
  unfold download_video, try_except, bind, call_extract_download, path_exists.
  cbn [download_files log set_download_files]. rewrite Heng.
  cbn [download_files log set_download_files].
  rewrite bool_decide_eq_false_2; [done|].
  rewrite Hfile. by intros [? ?].
Qed.

End DownloadPipelineFacts.

(** C7, as the code has it. When the engine succeeds, the file named by
    [prepare_filename] holds [bytes], and the base name of that file can
    be encoded as latin-1 (no character above U+00FF), the handler
    returns a streaming response over a fresh [iterfile()] generator for
    that file. Iterating
    it to the end ends with [StopIteration] within [length bytes + 1]
    calls of [next]; the chunks received are non-empty, at most
    8192 bytes long, and concatenate to [bytes]; afterwards no file exists
    at the artifact's path. *)
Theorem download_video_streams_artifact (ydl : World.Engine)
    (video : Url.VideoURL) (format_id : string) (w : World.world)
    (info : Model.InfoDict) (files : gmap string (list Byte.byte))
    (bytes : list Byte.byte) :
  World.extract_download ydl video format_id (World.download_files w)
    = (Ok info, files) ->
  files !! World.prepare_filename ydl info = Some bytes ->
  DownloadPipeline.latin1_encodable
    (DownloadPipeline.basename (World.prepare_filename ydl info)) = true ->
  exists response w1,
    DownloadPipeline.download_video ydl video format_id w = (Ok response, w1)
    /\ DownloadPipeline.body_filename response = World.prepare_filename ydl info
    /\ World.download_files w1 !! DownloadPipeline.body_filename response
         = Some bytes
    /\ forall extra,
         exists chunks w2,
           DownloadPipeline.consume (S (length bytes) + extra)
             (DownloadPipeline.body_filename response)
             (DownloadPipeline.body_iterator response) w1
             = (chunks, Some DownloadPipeline.StopIteration,
                DownloadPipeline.Finished, w2)
           /\ concat chunks = bytes
           /\ Forall (fun c => c <> []
                        /\ (length c <= DownloadPipeline.CHUNK_SIZE)%nat) chunks
           /\ World.download_files w2
                !! DownloadPipeline.body_filename response = None.
Proof.
  intros Heng Hfile Henc.
  eexists _, _. split.
  { apply (download_video_present ydl video format_id w info files Heng);
      [by eexists|done]. }
  cbn [DownloadPipeline.body_filename DownloadPipeline.body_iterator].
  split; [done|]. split; [done|].
  intros extra.
  change (S (length bytes) + extra)%nat with (S (length bytes + extra)).
  rewrite (consume_created _ (length bytes + extra) bytes) by done.
  destruct (consume_suspended (World.prepare_filename ydl info)
              (S (length bytes + extra)) bytes
              (World.log (World.EvOpen (World.prepare_filename ydl info))
                 (World.set_download_files files
                    (World.log (World.EvExtractDownload video format_id) w))))
    as (chunks & w2 & Hc & Hcat & Hall & Hgone & _); [lia|by eexists|].
  by exists chunks, w2.
Qed.

Lemma download_video_streams_artifact_witness :
  exists response w1,
    DownloadPipeline.download_video Scenario.writing_engine
      Scenario.watch_abc "18" Scenario.empty_world = (Ok response, w1)
    /\ DownloadPipeline.body_filename response = Scenario.artifact_path
    /\ World.download_files w1 !! DownloadPipeline.body_filename response
         = Some Scenario.artifact_bytes
    /\ forall extra,
         exists chunks w2,
           DownloadPipeline.consume (4 + extra)
             (DownloadPipeline.body_filename response)
             (DownloadPipeline.body_iterator response) w1
             = (chunks, Some DownloadPipeline.StopIteration,
                DownloadPipeline.Finished, w2)
           /\ concat chunks = Scenario.artifact_bytes
           /\ Forall (fun c => c <> []
                        /\ (length c <= DownloadPipeline.CHUNK_SIZE)%nat) chunks
           /\ World.download_files w2
                !! DownloadPipeline.body_filename response = None.
Proof.
  apply (download_video_streams_artifact Scenario.writing_engine
           Scenario.watch_abc "18" Scenario.empty_world Scenario.sample_info
           (<[Scenario.artifact_path := Scenario.artifact_bytes]> ∅)
           Scenario.artifact_bytes).
  - reflexivity.
  - vm_compute. reflexivity.
  - vm_compute. reflexivity.
Defined.

(** C7 as stated fails when the artifact's name has a character above
    U+00FF. The engine succeeds and writes [downloads/€.mp4]; the file
    exists, so line 247 builds the [StreamingResponse], whose
    constructor encodes the Content-Disposition header as latin-1 and
    raises [UnicodeEncodeError] inside the [try]; line 258 answers with
    status 500. Nothing is streamed and the artifact stays on storage. *)
Lemma download_video_unencodable_name_is_500 :
  let r := DownloadPipeline.download_video MoreScenarios.euro_engine
             Scenario.watch_abc "18" Scenario.empty_world in
  DownloadPipeline.latin1_encodable
    (DownloadPipeline.basename MoreScenarios.euro_path) = false
  /\ r.1 = Raise (HTTPException 500
                    (FString "An unexpected error occurred: "
                       (UnicodeEncodeError "latin-1")))
  /\ World.download_files r.2 !! MoreScenarios.euro_path
     = Some Scenario.artifact_bytes
  /\ DownloadPipeline.unlink_count MoreScenarios.euro_path r.2 = 0%nat.
Proof.
  split; [vm_compute; reflexivity|].
  rewrite (download_video_unencodable MoreScenarios.euro_engine
             Scenario.watch_abc "18" Scenario.empty_world Scenario.sample_info
             (<[MoreScenarios.euro_path := Scenario.artifact_bytes]> ∅));
    [|reflexivity|vm_compute; eauto|vm_compute; reflexivity].
  split; [reflexivity|]. split; vm_compute; reflexivity.
Qed.

(** C3, evaluated. The engine reports success, no file exists at the
    expected path: line 238 raises [HTTPException(404)], the clause
    [except Exception] of line 258 catches it, and the client receives
    status 500 whose detail embeds the 404. Nothing was deleted. *)
Theorem download_video_missing_artifact_is_500 :
  DownloadPipeline.download_video Scenario.forgetful_engine
    Scenario.watch_abc "18" Scenario.empty_world =
    (Raise (HTTPException 500
             (FString "An unexpected error occurred: "
                (HTTPException 404 (Text "File not found after download")))),
     World.log (World.EvExtractDownload Scenario.watch_abc "18")
       Scenario.empty_world)
  /\ DownloadPipeline.unlink_count Scenario.artifact_path
       (DownloadPipeline.download_video Scenario.forgetful_engine
          Scenario.watch_abc "18" Scenario.empty_world).2 = 0%nat.
Proof.
  rewrite (download_video_absent Scenario.forgetful_engine Scenario.watch_abc
             "18" Scenario.empty_world Scenario.sample_info ∅);
    [|reflexivity|reflexivity].
  split; reflexivity.
Qed.

(** C1, evaluated on the three exit paths of the streaming phase, for the
    three-byte artifact of the scenario. Normal completion: the artifact
    is deleted once and the file object is closed. Consumer disconnects
    after the first chunk: the file object is closed, [os.unlink] is not
    reached, the artifact stays on storage. A read fails after the first
    chunk: the same. *)
Theorem iterfile_deletes_only_on_completion :
  let filename := Scenario.artifact_path in
  let w := Scenario.downloaded_world in
  let completed := DownloadPipeline.consume 2 filename DownloadPipeline.Created w in
  let disconnected :=
    DownloadPipeline.stream filename
      [DownloadPipeline.Next false; DownloadPipeline.Disconnect]
      DownloadPipeline.Created w in
  let failed :=
    DownloadPipeline.stream filename
      [DownloadPipeline.Next false; DownloadPipeline.Next true]
      DownloadPipeline.Created w in
  (completed.1.1 = ([Scenario.artifact_bytes], Some DownloadPipeline.StopIteration)
   /\ World.download_files completed.2 !! filename = None
   /\ DownloadPipeline.unlink_count filename completed.2 = 1%nat
   /\ DownloadPipeline.open_handles (World.trace completed.2) = 0)
  /\ (disconnected.1 =
        ([DownloadPipeline.Yielded Scenario.artifact_bytes],
         DownloadPipeline.Finished)
      /\ World.download_files disconnected.2 !! filename
           = Some Scenario.artifact_bytes
      /\ DownloadPipeline.unlink_count filename disconnected.2 = 0%nat
      /\ DownloadPipeline.open_handles (World.trace disconnected.2) = 0)
  /\ (failed.1 =
        ([DownloadPipeline.Yielded Scenario.artifact_bytes;
          DownloadPipeline.Raised (OSError "read")],
         DownloadPipeline.Finished)
      /\ World.download_files failed.2 !! filename
           = Some Scenario.artifact_bytes
      /\ DownloadPipeline.unlink_count filename failed.2 = 0%nat
      /\ DownloadPipeline.open_handles (World.trace failed.2) = 0).
Proof. vm_compute. repeat split; reflexivity. Qed.

(** * Further properties of the code *)

(** ** RateLimiter: bursts, recovery, growth of the store *)

Section RateLimiterMore.

Import RateLimiter.

Variable cfg : config.

Lemma purge_all_fresh now stamps :
  Forall (fun s => now - s < window_seconds cfg) stamps ->
  purge cfg now stamps = stamps.
Proof.
  induction 1 as [|s stamps Hs _ IH]; simpl; [done|].
  apply Z.ltb_lt in Hs. unfold purge in *. simpl. by rewrite Hs, IH.
Qed.

Lemma purge_all_stale now stamps :
  Forall (fun s => window_seconds cfg <= now - s) stamps ->
  purge cfg now stamps = [].
Proof.
  induction 1 as [|s stamps Hs _ IH]; simpl; [done|].
  apply Z.ltb_ge in Hs. unfold purge in *. simpl. by rewrite Hs, IH.
Qed.

(** A burst seen from the list: as long as nothing leaves the window, the
    free places are filled one per call and every later call is refused. *)
Lemma admission_seq_burst times : forall stamps,
  0 <= max_requests cfg ->
  Forall (fun s => Forall (fun t => t - s < window_seconds cfg) times) stamps ->
  ForallOrdPairs (fun earlier later => later - earlier < window_seconds cfg) times ->
  let free := (Z.to_nat (max_requests cfg) - length stamps)%nat in
  (admission_seq cfg times stamps).1 =
    replicate (length times `min` free) true
      ++ replicate (length times - free) false.
Proof.
  induction times as [|t rest IH]; intros stamps Hq Hold Hpairs free; [done|].
  simpl. unfold admission.
  rewrite purge_all_fresh
    by (eapply Forall_impl; [exact Hold|]; intros s Hs; by inversion Hs).
  inversion Hpairs as [|? ? Ht Hrest]; subst.
  assert (Forall (fun s => Forall (fun t' => t' - s < window_seconds cfg) rest) stamps)
    as Hold' by (eapply Forall_impl; [exact Hold|]; intros s Hs; by inversion Hs).
  destruct (Z.of_nat (length stamps) >=? max_requests cfg) eqn:Hfull.
  - rewrite Z.geb_leb in Hfull. apply Z.leb_le in Hfull.
    specialize (IH stamps Hq Hold' Hrest).
    destruct (admission_seq cfg rest stamps) as [oks final]. simpl in *.
    rewrite IH. subst free.
    replace (Z.to_nat (max_requests cfg) - length stamps)%nat with 0%nat by lia.
    rewrite !Nat.min_0_r, !Nat.sub_0_r. done.
  - rewrite Z.geb_leb in Hfull. apply Z.leb_gt in Hfull.
    assert (Forall (fun s => Forall (fun t' => t' - s < window_seconds cfg) rest)
              (stamps ++ [t])) as Hnew.
    { apply Forall_app. split; [done|]. constructor; [|done].
      apply List.Forall_forall. intros t' Hin.
      by apply (proj1 (List.Forall_forall _ _) Ht). }
    specialize (IH (stamps ++ [t]) Hq Hnew Hrest).
    destruct (admission_seq cfg rest (stamps ++ [t])) as [oks final].
    simpl in *. rewrite IH, length_app. simpl. subst free.
    destruct (Z.to_nat (max_requests cfg) - length stamps)%nat as [|k] eqn:Hk;
      [lia|].
    replace (Z.to_nat (max_requests cfg) - (length stamps + 1))%nat with k by lia.
    done.
Qed.

End RateLimiterMore.

(** X1. A burst. When an identity without an entry makes calls whose times
    all lie less than [window_seconds] after every earlier one, the first
    [max_requests] calls are admitted and every further call is
    rejected. *)
Theorem burst_fills_quota_then_rejects (cfg : RateLimiter.config)
    (ip : string) (times : list Z) (store : gmap string (list Z)) :
  0 <= RateLimiter.max_requests cfg ->
  store !! ip = None ->
  ForallOrdPairs
    (fun earlier later => later - earlier < RateLimiter.window_seconds cfg)
    times ->
  let quota := Z.to_nat (RateLimiter.max_requests cfg) in
  (RateLimiter.run cfg (map (fun t => (ip, t)) times) store).1 =
    replicate (length times `min` quota) true
      ++ replicate (length times - quota) false.
Proof.
  intros Hq Hnone Hpairs quota.
  destruct (run_single cfg ip times store) as (-> & _ & _).
  rewrite Hnone. simpl.
  rewrite (admission_seq_burst cfg times [] Hq (List.Forall_nil _) Hpairs).
  simpl. by rewrite Nat.sub_0_r.
Qed.

Lemma burst_fills_quota_then_rejects_witness :
  (RateLimiter.run
     {| RateLimiter.window_seconds := 60; RateLimiter.max_requests := 2 |}
     (map (fun t => ("X", t)) [0; 10; 59; 59]) ∅).1 =
    replicate (4 `min` 2) true ++ replicate (4 - 2) false.
Proof.
  apply (burst_fills_quota_then_rejects
           {| RateLimiter.window_seconds := 60; RateLimiter.max_requests := 2 |}
           "X" [0; 10; 59; 59] ∅).
  - simpl. lia.
  - reflexivity.
  - repeat constructor; simpl; lia.
Defined.

(** X2. Recovery. When every timestamp stored for the caller is at least
    [window_seconds] old and the quota is at least one, the call is
    admitted and the caller's list is replaced by the current time
    alone. *)
Theorem stale_window_is_forgotten (cfg : RateLimiter.config) (now : Z)
    (ip : string) (store : gmap string (list Z)) :
  1 <= RateLimiter.max_requests cfg ->
  Forall (fun t => RateLimiter.window_seconds cfg <= now - t)
    (default [] (store !! ip)) ->
  RateLimiter.check_rate_limit cfg now ip store = (true, <[ip := [now]]> store).
Proof.
  intros Hq Hstale.
  rewrite check_rate_limit_admission. unfold RateLimiter.admission.
  rewrite (purge_all_stale cfg now _ Hstale).
  destruct (Z.of_nat (length (@nil Z)) >=? RateLimiter.max_requests cfg) eqn:Hfull;
    [|done].
  rewrite Z.geb_leb in Hfull. apply Z.leb_le in Hfull. simpl in Hfull. lia.
Qed.

Lemma stale_window_is_forgotten_witness :
  RateLimiter.check_rate_limit RateLimiter.RATE_LIMIT 3600 "X" {["X" := [0; 0]]}
    = (true, <["X" := [3600]]> {["X" := [0; 0]]}).
Proof.
  apply (stale_window_is_forgotten RateLimiter.RATE_LIMIT 3600 "X").
  - simpl. lia.
  - vm_compute. repeat constructor; discriminate.
Defined.

(** X3. The store only grows in identities: after any sequence of calls,
    every identity that had an entry still has one and every identity
    that called has one. *)
Theorem identities_are_never_evicted (cfg : RateLimiter.config)
    (calls : list (string * Z)) (store : gmap string (list Z)) :
  dom store ⊆ dom (RateLimiter.run cfg calls store).2
  /\ Forall (fun call => call.1 ∈ dom (RateLimiter.run cfg calls store).2) calls.
Proof.
  revert store. induction calls as [|[ip t] rest IH]; intros store; simpl.
  - split; [done|constructor].
  - pose proof (check_rate_limit_admission cfg t ip store) as Hc.
    destruct (RateLimiter.check_rate_limit cfg t ip store) as [ok store'].
    injection Hc as _ ->.
    specialize (IH (<[ip := (RateLimiter.admission cfg t (default [] (store !! ip))).2]> store)).
    destruct (RateLimiter.run cfg rest _) as [oks final]. simpl in *.
    destruct IH as [Hdom Hcalls]. rewrite dom_insert_L in Hdom.
    split; [set_solver|]. constructor; [simpl; set_solver|done].
Qed.

(** ** RateLimiter: the sliding-window guarantee *)

Section SlidingWindow.

Import RateLimiter Accepted.

Variable cfg : config.

Lemma last_cons_default (t c : Z) (rest : list Z) :
  List.last (t :: rest) c = List.last rest t.
Proof.
  revert t c. induction rest as [|u rest IH]; intros t c; [done|].
  change (List.last (t :: u :: rest) c) with (List.last (u :: rest) c).
  rewrite IH. symmetry. apply IH.
Qed.

Lemma purge_purge c now adm :
  c <= now ->
  purge cfg now (purge cfg c adm) = purge cfg now adm.
Proof.
  intros Hle. unfold purge.
  induction adm as [|x adm IH]; simpl; [done|].
  destruct (c - x <? window_seconds cfg) eqn:Hc; simpl; rewrite IH; [done|].
  apply Z.ltb_ge in Hc.
  assert ((now - x <? window_seconds cfg) = false) as ->
    by (apply Z.ltb_ge; lia).
  done.
Qed.

Lemma purge_app now l1 l2 :
  purge cfg now (l1 ++ l2) = purge cfg now l1 ++ purge cfg now l2.
Proof. apply List.filter_app. Qed.

(** With a clock that does not run backwards, the stored list is at every
    moment the admitted call times that are still inside the window. *)
Lemma admission_seq_window times : forall stamps adm c,
  0 < window_seconds cfg ->
  Sorted Z.le (c :: times) ->
  stamps = purge cfg c adm ->
  (admission_seq cfg times stamps).2 =
    purge cfg (List.last times c)
      (adm ++ accepted_times (admission_seq cfg times stamps).1 times).
Proof.
  induction times as [|t rest IH]; intros stamps adm c Hw Hsorted ->.
  - simpl. by rewrite app_nil_r.
  - apply Sorted_inv in Hsorted as [Hsorted Hhd].
    apply HdRel_inv in Hhd.
    rewrite last_cons_default. cbn [admission_seq].
    unfold admission. rewrite (purge_purge c t adm Hhd).
    destruct (Z.of_nat (length (purge cfg t adm)) >=? max_requests cfg).
    + specialize (IH (purge cfg t adm) adm t Hw Hsorted eq_refl).
      destruct (admission_seq cfg rest (purge cfg t adm)) as [oks final].
      cbn [fst snd accepted_times] in *. exact IH.
    + assert (purge cfg t adm ++ [t] = purge cfg t (adm ++ [t])) as Happ.
      { rewrite purge_app. f_equal. unfold purge. simpl.
        rewrite Z.sub_diag.
        by assert ((0 <? window_seconds cfg) = true) as -> by (by apply Z.ltb_lt). }
      specialize (IH (purge cfg t adm ++ [t]) (adm ++ [t]) t Hw Hsorted Happ).
      destruct (admission_seq cfg rest (purge cfg t adm ++ [t])) as [oks final].
      cbn [fst snd accepted_times] in *. rewrite <- app_assoc in IH. exact IH.
Qed.

Lemma admission_seq_bounded times : forall stamps,
  0 <= max_requests cfg ->
  Z.of_nat (length stamps) <= max_requests cfg ->
  Z.of_nat (length (admission_seq cfg times stamps).2) <= max_requests cfg.
Proof.
  induction times as [|t rest IH]; intros stamps Hq Hlen; simpl; [done|].
  unfold admission.
  pose proof (purge_length cfg t stamps) as Hle.
  destruct (Z.of_nat (length (purge cfg t stamps)) >=? max_requests cfg) eqn:Hfull.
  - specialize (IH (purge cfg t stamps) Hq ltac:(lia)).
    by destruct (admission_seq cfg rest (purge cfg t stamps)).
  - rewrite Z.geb_leb in Hfull. apply Z.leb_gt in Hfull.
    specialize (IH (purge cfg t stamps ++ [t]) Hq
                  ltac:(rewrite length_app; simpl; lia)).
    by destruct (admission_seq cfg rest (purge cfg t stamps ++ [t])).
Qed.

End SlidingWindow.

(** X4. The sliding-window guarantee. For an identity that starts without
    an entry and calls at non-decreasing times, at the moment of its
    latest call the number of its admitted calls (this one included)
    that lie less than [window_seconds] back is at most [max_requests]. *)
Theorem at_most_quota_in_any_window (cfg : RateLimiter.config) (ip : string)
    (times : list Z) (store : gmap string (list Z)) :
  0 <= RateLimiter.max_requests cfg ->
  0 < RateLimiter.window_seconds cfg ->
  store !! ip = None ->
  Sorted Z.le times ->
  let oks := (RateLimiter.run cfg (map (fun t => (ip, t)) times) store).1 in
  let now := List.last times 0 in
  Z.of_nat (length (List.filter
                      (fun t => now - t <? RateLimiter.window_seconds cfg)
                      (Accepted.accepted_times oks times)))
    <= RateLimiter.max_requests cfg.
Proof.
  intros Hq Hw Hnone Hsorted oks now. subst oks now.
  rewrite (proj1 (run_single cfg ip times store)), Hnone.
  change (default [] None) with (@nil Z).
  destruct times as [|t rest]; [simpl; lia|].
  assert (Sorted Z.le (t :: t :: rest)) as Hsorted'
    by (constructor; [done|]; constructor; lia).
  pose proof (admission_seq_window cfg (t :: rest) [] [] t Hw Hsorted' eq_refl)
    as Hwin.
  rewrite app_nil_l in Hwin. unfold RateLimiter.purge in Hwin.
  rewrite (last_cons_default t 0 rest), <- (last_cons_default t t rest).
  rewrite <- Hwin.
  apply admission_seq_bounded; simpl; lia.
Qed.

Lemma at_most_quota_in_any_window_witness :
  let cfg := {| RateLimiter.window_seconds := 60; RateLimiter.max_requests := 2 |} in
  let times := [0; 10; 20; 60; 65] in
  let oks := (RateLimiter.run cfg (map (fun t => ("X", t)) times) ∅).1 in
  Z.of_nat (length (List.filter (fun t => 65 - t <? 60)
                      (Accepted.accepted_times oks times))) <= 2.
Proof.
  intros cfg times.
  apply (at_most_quota_in_any_window cfg "X" times ∅).
  - simpl. lia.
  - simpl. lia.
  - reflexivity.
  - repeat constructor; lia.
Defined.

(** ** MetadataCache: hits, refresh, independence of keys *)

Section MetadataCacheMore.

Import Model World MetadataCache.

Lemma get_cached_info_returns now video_id (w : world) :
  exists r, (get_cached_info now video_id w).1 = Ok r.
Proof.
  destruct (cache_files w !! get_cache_key video_id) as [entry|] eqn:Hentry.
  - rewrite (get_cached_info_entry now video_id w entry Hentry). simpl. eauto.
  - rewrite (get_cached_info_absent now video_id w Hentry). simpl. eauto.
Qed.

Lemma get_cached_info_some_iff now video_id (w : world) v :
  (get_cached_info now video_id w).1 = Ok (Some v)
  <-> exists entry,
        cache_files w !! get_cache_key video_id = Some entry
        /\ info entry = v
        /\ now - cache_time entry < timedelta_hours 1.
Proof.
  destruct (cache_files w !! get_cache_key video_id) as [entry|] eqn:Hentry.
  - rewrite (get_cached_info_entry now video_id w entry Hentry). simpl.
    destruct (now - cache_time entry <? timedelta_hours 1) eqn:Hfresh.
    + apply Z.ltb_lt in Hfresh. split.
      * intros [= <-]. eauto.
      * intros (entry' & [= <-] & <- & _). done.
    + apply Z.ltb_ge in Hfresh. split; [discriminate|].
      intros (entry' & [= <-] & _ & Hlt). lia.
  - rewrite (get_cached_info_absent now video_id w Hentry). simpl.
    split; [discriminate|].
    intros (entry' & [=] & _).
Qed.

End MetadataCacheMore.

(** X5. A lookup returns a payload exactly when the cache file of the
    identifier exists, holds that payload, and was written less than one
    hour before the lookup. *)
Theorem get_cached_info_hit_iff (w : World.world) (video_id : string)
    (now : Z) (v : Model.VideoInfo) :
  (MetadataCache.get_cached_info now video_id w).1 = Ok (Some v)
  <-> exists entry,
        World.cache_files w !! MetadataCache.get_cache_key video_id
          = Some entry
        /\ World.info entry = v
        /\ now - World.cache_time entry < MetadataCache.timedelta_hours 1.
Proof. apply get_cached_info_some_iff. Qed.

(** X6. Refresh replaces the entry wholesale: saving twice for one
    identifier leaves the cache exactly as the second save alone would,
    whatever the first save wrote and whenever. *)
Theorem save_cache_info_overwrites (w : World.world) (video_id : string)
    (v1 v2 : Model.VideoInfo) (t1 t2 : Z) :
  MetadataCache.save_cache_info t2 video_id v2
    (MetadataCache.save_cache_info t1 video_id v1 w).2
  = MetadataCache.save_cache_info t2 video_id v2 w.
Proof.
  destruct (World.write_text_error w (MetadataCache.get_cache_key video_id))
    as [e|] eqn:Hwrite.
  - by rewrite (save_cache_info_refused t1 video_id v1 w e Hwrite).
  - rewrite (save_cache_info_entry t1 video_id v1 w Hwrite),
      (save_cache_info_entry t2 video_id v2 w Hwrite).
    cbn [snd].
    rewrite save_cache_info_entry
      by (eapply write_text_error_existing; simpl; apply lookup_insert_eq).
    f_equal. unfold World.set_cache_files. simpl. f_equal.
    apply insert_insert_eq.
Qed.

(** ** The rendition filter, exactly *)

Section ShapeFormats.

Import Model.

Lemma make_format_ok_iff f vf :
  make_format f = Ok vf
  <-> exists fid,
        f_format_id f = Some fid
        /\ vf = {| format_id := fid;
                   ext := default "" (f_ext f);
                   quality := default "" (f_format_note f);
                   filesize := f_filesize f;
                   resolution := f_resolution f;
                   fps := f_fps f;
                   vcodec := f_vcodec f;
                   acodec := f_acodec f |}.
Proof.
  unfold make_format, getitem.
  destruct (f_format_id f) as [fid|]; split.
  - intros [= <-]. eauto.
  - intros (fid' & [= <-] & ->). done.
  - discriminate.
  - intros (fid' & [=] & _).
Qed.

Lemma make_format_raise f e :
  make_format f = Raise e <-> f_format_id f = None /\ e = KeyError "format_id".
Proof.
  unfold make_format, getitem.
  destruct (f_format_id f) as [fid|]; split.
  - discriminate.
  - intros [[=] _].
  - intros [= <-]. done.
  - intros [_ ->]. done.
Qed.

Lemma shape_formats_ok_iff fs : forall vfs,
  shape_formats fs = Ok vfs
  <-> Forall2 (fun f vf => make_format f = Ok vf)
        (List.filter ext_accepted fs) vfs.
Proof.
  induction fs as [|f rest IH]; intros vfs; simpl.
  - split; [intros [= <-]; constructor|intros H; by inversion H].
  - destruct (ext_accepted f); [|apply IH].
    destruct (make_format f) as [vf|e] eqn:Hmake.
    + destruct (shape_formats rest) as [vfs'|e'] eqn:Hrest.
      * split.
        -- intros [= <-]. constructor; [done|]. by apply IH.
        -- intros H. inversion H as [|? vf' ? vfs'' Hvf Htail]; subst.
           apply IH in Htail. congruence.
      * split; [discriminate|].
        intros H. inversion H as [|? vf' ? vfs'' Hvf Htail]; subst.
        apply IH in Htail. discriminate.
    + split; [discriminate|].
      intros H. inversion H; subst. congruence.
Qed.

Lemma shape_formats_raises_iff fs e :
  shape_formats fs = Raise e
  <-> e = KeyError "format_id"
      /\ Exists (fun f => ext_accepted f = true /\ f_format_id f = None) fs.
Proof.
  induction fs as [|f rest IH]; simpl.
  - split; [discriminate|]. intros [_ H]. inversion H.
  - destruct (ext_accepted f) eqn:Hacc.
    + destruct (make_format f) as [vf|e'] eqn:Hmake.
      * apply make_format_ok_iff in Hmake as (fid & Hfid & _).
        destruct (shape_formats rest) as [vfs|e''].
        -- split; [discriminate|]. intros [-> H].
           inversion H as [? ? [_ Hnone]|? ? Htail]; subst; [congruence|].
           discriminate (proj2 IH (conj eq_refl Htail)).
        -- rewrite IH. split.
           ++ intros [-> H]. split; [done|]. by right.
           ++ intros [-> H]. split; [done|].
              inversion H as [? ? [_ Hnone]|? ? Htail]; subst; [congruence|done].
      * apply make_format_raise in Hmake as [Hnone ->]. split.
        -- intros [= <-]. split; [done|]. by left.
        -- intros [-> _]. done.
    + rewrite IH. split.
      * intros [-> H]. split; [done|]. by right.
      * intros [-> H]. split; [done|].
        inversion H as [? ? [Habs _]|? ? Htail]; subst; [congruence|done].
Qed.

End ShapeFormats.

(** ** MetadataService: cache hits, error mapping, what a failure leaves *)

Section MetadataServiceMore.

Import Url Model World MetadataCache MetadataService.

Lemma on_exception_raises {A} (e : exn) (w : world) :
  exists status prefix,
    @on_exception A e w = (Raise (HTTPException status (FString prefix e)), w)
    /\ ((status = 400 /\ exists msg, e = DownloadError msg)
        \/ (status = 500 /\ forall msg, e <> DownloadError msg)).
Proof.
  destruct e; simpl; eexists _, _; (split; [reflexivity|]);
    first [left; split; [done|eauto] | right; split; [done|intros ?; discriminate]].
Qed.

(** The handler on a cache miss, one engine outcome at a time. *)
Lemma get_video_info_miss (ydl : Engine) t1 t2 (video : VideoURL) (w : world) vid :
  video_id video = Ok vid ->
  (get_cached_info t1 vid w).1 = Ok None ->
  get_video_info ydl t1 t2 video w =
    let w1 := log (EvExtractInfo video) w in
    match extract_info ydl video with
    | Raise e => on_exception e w1
    | Ok info =>
        match shape_formats (default [] (i_formats info)) with
        | Raise e => on_exception e w1
        | Ok fmts =>
            match make_info info fmts with
            | Raise e => on_exception e w1
            | Ok video_info =>
                match write_text_error w (get_cache_key vid) with
                | None =>
                    (Ok video_info, (save_cache_info t2 vid video_info w1).2)
                | Some e => on_exception e w1
                end
            end
        end
    end.
Proof.
  intros Hvid Hmiss.
  pose proof (get_cached_info_pure t1 vid w) as Hpure.
  destruct (get_cached_info t1 vid w) as [r w0] eqn:Hget.
  simpl in Hmiss, Hpure. subst r w0.
  unfold get_video_info, try_except, bind, lift, call_extract_info.
  rewrite Hvid, Hget. simpl.
  destruct (extract_info ydl video) as [info|e]; [|done].
  destruct (shape_formats (default [] (i_formats info))) as [fmts|e]; [|done].
  destruct (make_info info fmts) as [video_info|e]; [|done].
  unfold save_cache_info, cache_write.
  change (write_text_error (log (EvExtractInfo video) w) (get_cache_key vid))
    with (write_text_error w (get_cache_key vid)).
  by destruct (write_text_error w (get_cache_key vid)).
Qed.

(** A refused write raises an operating-system error, nothing else. *)
Lemma write_text_error_kind (w : world) p e :
  write_text_error w p = Some e -> forall msg, e <> DownloadError msg.
Proof.
  unfold write_text_error.
  destruct (cache_files w !! p); [discriminate|].
  destruct (create_refused w p) as [[|m]|]; simpl; intros [= <-] msg;
    discriminate.
Qed.

(** The handler on a cache hit. *)
Lemma get_video_info_hit (ydl : Engine) t1 t2 (video : VideoURL) (w : world) vid cached :
  video_id video = Ok vid ->
  (get_cached_info t1 vid w).1 = Ok (Some cached) ->
  get_video_info ydl t1 t2 video w = (Ok cached, w).
Proof.
  intros Hvid Hhit.
  pose proof (get_cached_info_pure t1 vid w) as Hpure.
  destruct (get_cached_info t1 vid w) as [r w0] eqn:Hget.
  simpl in Hhit, Hpure. subst r w0.
  unfold get_video_info, try_except, bind, lift.
  by rewrite Hvid, Hget.
Qed.

(** Every path of the handler, by what [video_id] and the cache give. *)
Lemma get_video_info_paths (t1 : Z) (video : VideoURL) (w : world) :
  (exists e, video_id video = Raise e)
  \/ (exists vid cached,
        video_id video = Ok vid
        /\ (get_cached_info t1 vid w).1 = Ok (Some cached))
  \/ (exists vid,
        video_id video = Ok vid /\ (get_cached_info t1 vid w).1 = Ok None).
Proof.
  destruct (video_id video) as [vid|e] eqn:Hvid; [|eauto].
  right.
  destruct (get_cached_info_returns t1 vid w) as [[cached|] Hr]; eauto.
Qed.

(** The handler when the cache holds an entry younger than one hour. *)
Lemma get_video_info_fresh_entry (ydl : Engine) t1 t2 (video : VideoURL)
    (w : world) vid entry :
  video_id video = Ok vid ->
  cache_files w !! get_cache_key vid = Some entry ->
  t1 - cache_time entry < timedelta_hours 1 ->
  get_video_info ydl t1 t2 video w = (Ok (info entry), w).
Proof.
  intros Hvid Hentry Hfresh.
  apply (get_video_info_hit ydl t1 t2 video w vid); [done|].
  apply get_cached_info_some_iff. eauto.
Qed.

(** The handler when [video_id] raises. *)
Lemma get_video_info_invalid (ydl : Engine) t1 t2 (video : VideoURL)
    (w : world) e :
  video_id video = Raise e ->
  get_video_info ydl t1 t2 video w =
    (Raise (HTTPException 500 (FString "An unexpected error occurred: " e)), w).
Proof.
  intros Hvid. destruct (video_id_raises video e Hvid) as [msg ->].
  unfold get_video_info, try_except, bind, lift. by rewrite Hvid.
Qed.

(** What a failing request looks like, on every path. *)
Lemma get_video_info_failure (ydl : Engine) t1 t2 (video : VideoURL)
    (w : world) e :
  (get_video_info ydl t1 t2 video w).1 = Raise e ->
  exists status prefix cause,
    e = HTTPException status (FString prefix cause)
    /\ ((status = 400
         /\ exists msg, cause = DownloadError msg
                        /\ extract_info ydl video = Raise (DownloadError msg))
        \/ status = 500)
    /\ cache_files (get_video_info ydl t1 t2 video w).2 = cache_files w
    /\ download_files (get_video_info ydl t1 t2 video w).2 = download_files w.
Proof.
  destruct (get_video_info_paths t1 video w)
    as [[e0 Hvid]|[(vid & cached & Hvid & Hhit)|(vid & Hvid & Hmiss)]].
  - rewrite (get_video_info_invalid ydl t1 t2 video w e0 Hvid). simpl.
    intros [= <-]. eexists _, _, _. split; [done|]. split; [by right|done].
  - rewrite (get_video_info_hit ydl t1 t2 video w vid cached Hvid Hhit).
    discriminate.
  - rewrite (get_video_info_miss ydl t1 t2 video w vid Hvid Hmiss). simpl.
    assert (forall e0,
      (@on_exception VideoInfo e0 (log (EvExtractInfo video) w)).1 = Raise e ->
      (forall msg, e0 = DownloadError msg ->
         extract_info ydl video = Raise (DownloadError msg)) ->
      exists status prefix cause,
        e = HTTPException status (FString prefix cause)
        /\ ((status = 400
             /\ exists msg, cause = DownloadError msg
                            /\ extract_info ydl video = Raise (DownloadError msg))
            \/ status = 500)
        /\ cache_files (@on_exception VideoInfo e0 (log (EvExtractInfo video) w)).2
             = cache_files w
        /\ download_files (@on_exception VideoInfo e0 (log (EvExtractInfo video) w)).2
             = download_files w) as Hexc.
    { intros e0 He Heng.
      destruct (@on_exception_raises VideoInfo e0 (log (EvExtractInfo video) w))
        as (s & p & Hraise & Hstatus).
      rewrite Hraise in *. simpl in He. injection He as <-.
      eexists _, _, _. split; [done|]. split; [|done].
      destruct Hstatus as [[-> [msg ->]]|[-> _]]; [left|by right].
      split; [done|]. eauto. }
    destruct (extract_info ydl video) as [info|e0] eqn:Heng.
    + destruct (shape_formats _) as [fmts|e0] eqn:Hshape.
      * destruct (make_info info fmts) as [vi|e0] eqn:Hmake.
        { destruct (write_text_error w (get_cache_key vid)) as [e0|] eqn:Hwrite;
            [|discriminate].
          intros He. apply (Hexc e0 He). intros msg ->.
          by destruct (write_text_error_kind w _ _ Hwrite msg). }
        intros He. apply (Hexc e0 He). intros msg ->.
        unfold make_info, getitem in Hmake.
        repeat (destruct (_ : option _) in Hmake; try discriminate).
      * intros He. apply (Hexc e0 He). intros msg ->.
        destruct (shape_formats_raises_iff (default [] (i_formats info))
                    (DownloadError msg)) as [Hk _].
        by destruct (Hk Hshape).
    + intros He. apply (Hexc e0 He). by intros msg ->.
Qed.

End MetadataServiceMore.

(** X8. A cache hit short-circuits the engine: when the identifier has an
    entry younger than one hour, the handler returns the cached payload
    and changes nothing outside; no engine call is made, whatever the
    engine would have answered. *)
Theorem get_video_info_cache_hit (ydl : World.Engine) (t1 t2 : Z)
    (video : Url.VideoURL) (w : World.world) (vid : string)
    (entry : World.cache_data) :
  Url.video_id video = Ok vid ->
  World.cache_files w !! MetadataCache.get_cache_key vid = Some entry ->
  t1 - World.cache_time entry < MetadataCache.timedelta_hours 1 ->
  MetadataService.get_video_info ydl t1 t2 video w
    = (Ok (World.info entry), w).
Proof.
  apply get_video_info_fresh_entry.
Qed.

Lemma get_video_info_cache_hit_witness :
  let v := {| Model.title := "cached"; Model.thumbnail := "t.jpg";
              Model.duration := 12; Model.formats := [];
              Model.description := None; Model.view_count := None;
              Model.upload_date := None |} in
  let w := (MetadataCache.save_cache_info 0 "abc" v Scenario.empty_world).2 in
  MetadataService.get_video_info Scenario.writing_engine 10 11
    Scenario.watch_abc w
  = (Ok (World.info {| World.cache_time := 0; World.info := v |}), w).
Proof.
  intros v w.
  apply (get_video_info_cache_hit Scenario.writing_engine 10 11
           Scenario.watch_abc w "abc").
  - vm_compute. reflexivity.
  - vm_compute. reflexivity.
  - vm_compute. reflexivity.
Defined.

(** X9. A request that missed the cache and succeeded makes the next
    request for the same video, if it comes less than one hour after the
    save, return the same VideoInfo without any engine call, whatever
    engine it is given. *)
Theorem get_video_info_second_request_cached (ydl ydl' : World.Engine)
    (t1 t2 t3 t4 : Z) (video : Url.VideoURL) (w w1 : World.world)
    (vid : string) (video_info : Model.VideoInfo) :
  Url.video_id video = Ok vid ->
  (MetadataCache.get_cached_info t1 vid w).1 = Ok None ->
  MetadataService.get_video_info ydl t1 t2 video w = (Ok video_info, w1) ->
  t3 - t2 < MetadataCache.timedelta_hours 1 ->
  MetadataService.get_video_info ydl' t3 t4 video w1 = (Ok video_info, w1).
Proof.
  intros Hvid Hmiss Hfirst Hfresh.
  rewrite (get_video_info_miss ydl t1 t2 video w vid Hvid Hmiss) in Hfirst.
  simpl in Hfirst.
  assert (forall e w0, @MetadataService.on_exception Model.VideoInfo e w0
                       <> (Ok video_info, w1)) as Hexc.
  { intros e w0.
    destruct (@on_exception_raises Model.VideoInfo e w0)
      as (s & p & -> & _). discriminate. }
  destruct (World.extract_info ydl video) as [info|e];
    [|by apply Hexc in Hfirst].
  destruct (Model.shape_formats _) as [fmts|e];
    [|by apply Hexc in Hfirst].
  destruct (Model.make_info info fmts) as [vi|e];
    [|by apply Hexc in Hfirst].
  destruct (World.write_text_error w (MetadataCache.get_cache_key vid))
    as [e|] eqn:Hwrite; [by apply Hexc in Hfirst|].
  rewrite (save_cache_info_entry t2 vid vi
             (World.log (World.EvExtractInfo video) w) Hwrite) in Hfirst.
  injection Hfirst as -> <-.
  apply (get_video_info_fresh_entry ydl' t3 t4 video _ vid
           {| World.cache_time := t2; World.info := video_info |}); [done| |done].
  simpl. apply lookup_insert_eq.
Qed.

Lemma get_video_info_second_request_cached_witness :
  exists video_info w1,
    MetadataService.get_video_info Scenario.writing_engine 0 1
      Scenario.watch_abc Scenario.empty_world = (Ok video_info, w1)
    /\ MetadataService.get_video_info Scenario.forgetful_engine 3600000000 0
         Scenario.watch_abc w1 = (Ok video_info, w1).
Proof.
  eexists _, _. split; [vm_compute; reflexivity|].
  apply (get_video_info_second_request_cached Scenario.writing_engine
           Scenario.forgetful_engine 0 1 3600000000 0 Scenario.watch_abc
           Scenario.empty_world _ "abc").
  - vm_compute. reflexivity.
  - vm_compute. reflexivity.
  - vm_compute. reflexivity.
  - vm_compute. reflexivity.
Defined.

(** X10. Whatever goes wrong in the metadata handler reaches the client
    as an [HTTPException] with status 400 or 500, and status 400 means
    that the engine was called and raised [DownloadError]. *)
Theorem get_video_info_error_statuses (ydl : World.Engine) (t1 t2 : Z)
    (video : Url.VideoURL) (w : World.world) (e : exn) :
  (MetadataService.get_video_info ydl t1 t2 video w).1 = Raise e ->
  exists status prefix cause,
    e = HTTPException status (FString prefix cause)
    /\ ((status = 400
         /\ exists msg, cause = DownloadError msg
                        /\ World.extract_info ydl video = Raise (DownloadError msg))
        \/ status = 500).
Proof.
  intros He.
  destruct (get_video_info_failure ydl t1 t2 video w e He)
    as (status & prefix & cause & -> & Hstatus & _).
  eauto.
Qed.

Lemma get_video_info_error_statuses_witness :
  exists status prefix cause,
    HTTPException 400
      (FString "Video download error: " (DownloadError "Video unavailable"))
    = HTTPException status (FString prefix cause)
    /\ ((status = 400
         /\ exists msg, cause = DownloadError msg
                        /\ World.extract_info MoreScenarios.unavailable_engine
                             Scenario.watch_abc = Raise (DownloadError msg))
        \/ status = 500).
Proof.
  apply (get_video_info_error_statuses MoreScenarios.unavailable_engine 0 1
           Scenario.watch_abc Scenario.empty_world).
  vm_compute. reflexivity.
Defined.

(** X11. A metadata request that fails writes nothing: the cache
    directory and the download directory are as they were before the
    request. *)
Theorem get_video_info_failure_writes_nothing (ydl : World.Engine)
    (t1 t2 : Z) (video : Url.VideoURL) (w : World.world) (e : exn) :
  (MetadataService.get_video_info ydl t1 t2 video w).1 = Raise e ->
  World.cache_files (MetadataService.get_video_info ydl t1 t2 video w).2
    = World.cache_files w
  /\ World.download_files (MetadataService.get_video_info ydl t1 t2 video w).2
     = World.download_files w.
Proof.
  intros He.
  destruct (get_video_info_failure ydl t1 t2 video w e He)
    as (status & prefix & cause & _ & _ & Hcache & Hfiles).
  done.
Qed.

Lemma get_video_info_failure_writes_nothing_witness :
  World.cache_files
    (MetadataService.get_video_info MoreScenarios.unavailable_engine 0 1
       Scenario.watch_abc Scenario.empty_world).2
    = World.cache_files Scenario.empty_world
  /\ World.download_files
       (MetadataService.get_video_info MoreScenarios.unavailable_engine 0 1
          Scenario.watch_abc Scenario.empty_world).2
     = World.download_files Scenario.empty_world.
Proof.
  apply (get_video_info_failure_writes_nothing MoreScenarios.unavailable_engine
           0 1 Scenario.watch_abc Scenario.empty_world
           (HTTPException 400
              (FString "Video download error: "
                 (DownloadError "Video unavailable")))).
  vm_compute. reflexivity.
Defined.

(** X12. The rendition filter, exactly. The comprehension succeeds with
    the list obtained by applying the [VideoFormat] constructor, in
    order, to the renditions whose [ext] is accepted; it raises, and then
    [KeyError('format_id')], exactly when some accepted rendition has no
    [format_id]. Renditions that are filtered out are never looked at. *)
Theorem shape_formats_exact (fs : list Model.FormatDict) :
  (forall vfs,
     Model.shape_formats fs = Ok vfs
     <-> Forall2 (fun f vf => Model.make_format f = Ok vf)
           (List.filter Model.ext_accepted fs) vfs)
  /\ (forall e,
        Model.shape_formats fs = Raise e
        <-> e = KeyError "format_id"
            /\ Exists (fun f => Model.ext_accepted f = true
                                /\ Model.f_format_id f = None) fs).
Proof.
  split.
  - apply shape_formats_ok_iff.
  - intros e. apply shape_formats_raises_iff.
Qed.

(** X13. One accepted rendition without [format_id] fails the whole
    metadata request: on a cache miss the engine is called, the handler
    answers with status 500 carrying the [KeyError], and nothing is
    cached. *)
Theorem get_video_info_rendition_without_id (ydl : World.Engine)
    (t1 t2 : Z) (video : Url.VideoURL) (w : World.world) (vid : string)
    (info : Model.InfoDict) :
  Url.video_id video = Ok vid ->
  (MetadataCache.get_cached_info t1 vid w).1 = Ok None ->
  World.extract_info ydl video = Ok info ->
  Exists (fun f => Model.ext_accepted f = true /\ Model.f_format_id f = None)
    (default [] (Model.i_formats info)) ->
  MetadataService.get_video_info ydl t1 t2 video w =
    (Raise (HTTPException 500
             (FString "An unexpected error occurred: " (KeyError "format_id"))),
     World.log (World.EvExtractInfo video) w).
Proof.
  intros Hvid Hmiss Hinfo Hbad.
  rewrite (get_video_info_miss ydl t1 t2 video w vid Hvid Hmiss), Hinfo.
  simpl.
  by rewrite (proj2 (shape_formats_raises_iff _ (KeyError "format_id"))
                (conj eq_refl Hbad)).
Qed.

Lemma get_video_info_rendition_without_id_witness :
  MetadataService.get_video_info MoreScenarios.sloppy_engine 0 1
    Scenario.watch_abc Scenario.empty_world =
    (Raise (HTTPException 500
             (FString "An unexpected error occurred: " (KeyError "format_id"))),
     World.log (World.EvExtractInfo Scenario.watch_abc) Scenario.empty_world).
Proof.
  apply (get_video_info_rendition_without_id MoreScenarios.sloppy_engine 0 1
           Scenario.watch_abc Scenario.empty_world "abc"
           MoreScenarios.info_without_format_id).
  - vm_compute. reflexivity.
  - vm_compute. reflexivity.
  - reflexivity.
  - simpl. right. left. split; reflexivity.
Defined.

(** ** VideoURL.video_id: which URLs give which identifier *)

Section VideoIdMore.

Import Url.

Lemma string_prefix_app (sub post : string) :
  String.prefix sub (sub +:+ post) = true.
Proof.
  induction sub as [|c sub IH]; simpl; [by destruct post|].
  destruct (ascii_dec c c); [done|congruence].
Qed.

(** [sub in (pre + sub + post)] *)
Lemma contains_app (sub pre post : string) :
  contains sub (pre +:+ sub +:+ post) = true.
Proof.
  induction pre as [|c pre IH].
  - change (EmptyString +:+ sub +:+ post) with (sub +:+ post).
    pose proof (string_prefix_app sub post) as Hp.
    destruct (sub +:+ post) eqn:Hs; cbn [contains]; [done|]. by rewrite Hp.
  - change (String c pre +:+ sub +:+ post)
      with (String c (pre +:+ sub +:+ post)).
    cbn [contains]. rewrite IH. apply orb_true_r.
Qed.

Lemma split_none sep s : count sep s = 0%nat -> split sep s = [s].
Proof.
  induction s as [|c s IH]; simpl; [done|].
  destruct (Ascii.eqb c sep); [discriminate|].
  intros Hc. by rewrite IH.
Qed.

(** [(s1 + sep + s2).split(sep) == s1.split(sep) + s2.split(sep)] *)
Lemma split_app sep s1 s2 :
  split sep (s1 +:+ String sep s2) = split sep s1 ++ split sep s2.
Proof.
  induction s1 as [|c s1 IH]; simpl.
  - by rewrite Ascii.eqb_refl.
  - destruct (Ascii.eqb c sep); [by rewrite IH|].
    rewrite IH. pose proof (split_length sep s1) as Hlen.
    destruct (split sep s1); [discriminate|done].
Qed.

Lemma dict_of_app items1 items2 : forall acc,
  dict_of (items1 ++ items2) acc =
    match dict_of items1 acc with
    | Ok acc' => dict_of items2 acc'
    | Raise e => Raise e
    end.
Proof.
  induction items1 as [|item rest IH]; intros acc; simpl; [done|].
  destruct item as [|k [|v [|x xs]]]; first [done|apply IH].
Qed.

(** A query whose components hold at most one "=" each builds a
    dictionary. *)
Lemma dict_of_well_formed q acc :
  Forall (fun c => (count "=" c <= 1)%nat) (split "&" q) ->
  exists d,
    dict_of (map (split "=") (List.filter (contains "=") (split "&" q))) acc
      = Ok d.
Proof.
  intros Hwf.
  destruct (dict_of _ acc) as [d|e] eqn:Hd; [eauto|].
  assert (exists e', dict_of
            (map (split "=") (List.filter (contains "=") (split "&" q))) acc
            = Raise e') as Hraise by eauto.
  apply dict_of_raises_iff, List.Exists_exists in Hraise
    as (item & Hin & Hlen).
  apply in_map_iff in Hin as (c & <- & Hc).
  apply filter_In in Hc as [Hc Heq].
  rewrite split_length in Hlen.
  apply (contains_char_count "=" c) in Heq.
  pose proof (proj1 (List.Forall_forall _ _) Hwf c Hc). simpl in *. lia.
Qed.

End VideoIdMore.

(** X14. When [video_id] raises, exactly. It raises, and then a
    [ValueError], if and only if the host does not contain "youtu.be" and
    either does not contain "youtube.com" or some "&"-separated component
    of the query holds two or more "=" signs. In every other case it
    returns a string, possibly the empty one. *)
Theorem video_id_raises_exactly (video : Url.VideoURL) :
  ((exists e, Url.video_id video = Raise e)
   <-> Url.contains "youtu.be" (Url.netloc (Url.url video)) = false
       /\ (Url.contains "youtube.com" (Url.netloc (Url.url video)) = false
           \/ Exists (fun q => (2 <= Url.count "=" q)%nat)
                (Url.split "&" (Url.query (Url.url video)))))
  /\ (forall e, Url.video_id video = Raise e -> exists msg, e = ValueError msg).
Proof.
  split; [apply video_id_raises_iff|apply video_id_raises].
Qed.

(** X15. The host test is a substring test. Any host in which "youtu.be"
    occurs anywhere is taken for a short link: the identifier is the path
    without its first character, and the query is not read. *)
Theorem video_id_short_link_anywhere (pre post p q : string) :
  Url.video_id
    {| Url.url := {| Url.netloc := pre +:+ "youtu.be" +:+ post;
                     Url.path := p; Url.query := q |} |}
  = Ok (Url.slice_from_1 p).
Proof.
  unfold Url.video_id.
  cbn [Url.url Url.netloc Url.path].
  by rewrite (contains_app "youtu.be" pre post).
Qed.

(** X16. The [v] parameter. For a host that contains "youtube.com" and not
    "youtu.be", and an identifier without "&" and "=": the query
    [v=<id>] gives the identifier back, and so does any query that ends
    in [&v=<id>] after components with at most one "=" each, even when an
    earlier component also sets [v]. *)
Theorem video_id_v_parameter (host p id q1 : string) :
  Url.contains "youtu.be" host = false ->
  Url.contains "youtube.com" host = true ->
  Url.count "&" id = 0%nat ->
  Url.count "=" id = 0%nat ->
  Forall (fun c => (Url.count "=" c <= 1)%nat) (Url.split "&" q1) ->
  Url.video_id
    {| Url.url := {| Url.netloc := host; Url.path := p;
                     Url.query := "v=" +:+ id |} |} = Ok id
  /\ Url.video_id
       {| Url.url := {| Url.netloc := host; Url.path := p;
                        Url.query := q1 +:+ "&v=" +:+ id |} |} = Ok id.
Proof.
  intros Hshort Hhost Hamp Heq Hwf.
  assert (Url.split "&" ("v=" +:+ id) = ["v=" +:+ id]) as Hcomp
    by (apply split_none; simpl; done).
  assert (Url.contains "=" ("v=" +:+ id) = true) as Hhas
    by (apply (contains_char_count "=" ("v=" +:+ id)); simpl; lia).
  assert (Url.split "=" ("v=" +:+ id) = ["v"; id]) as Hpair.
  { change ("v=" +:+ id) with ("v" +:+ String "=" id).
    by rewrite split_app, (split_none "=" id Heq). }
  unfold Url.video_id. cbn [Url.url Url.netloc Url.query].
  rewrite Hshort, Hhost. split.
  - rewrite Hcomp. cbn [List.filter]. rewrite Hhas. cbn [map].
    rewrite Hpair. simpl. by rewrite lookup_insert_eq.
  - change (q1 +:+ "&v=" +:+ id) with (q1 +:+ String "&" ("v=" +:+ id)).
    rewrite split_app, Hcomp, List.filter_app, map_app.
    cbn [List.filter]. rewrite Hhas. cbn [map]. rewrite Hpair.
    rewrite dict_of_app.
    destruct (dict_of_well_formed q1 ∅ Hwf) as [d ->].
    simpl. by rewrite lookup_insert_eq.
Qed.

Lemma video_id_v_parameter_witness :
  Url.video_id
    {| Url.url := {| Url.netloc := "www.youtube.com"; Url.path := "/watch";
                     Url.query := "v=" +:+ "dQw4w9WgXcQ" |} |}
    = Ok "dQw4w9WgXcQ"
  /\ Url.video_id
       {| Url.url := {| Url.netloc := "www.youtube.com"; Url.path := "/watch";
                        Url.query := "v=old&t=10" +:+ "&v=" +:+ "dQw4w9WgXcQ" |} |}
     = Ok "dQw4w9WgXcQ".
Proof.
  apply (video_id_v_parameter "www.youtube.com" "/watch" "dQw4w9WgXcQ"
           "v=old&t=10").
  - vm_compute. reflexivity.
  - vm_compute. reflexivity.
  - vm_compute. reflexivity.
  - vm_compute. reflexivity.
  - vm_compute. repeat constructor.
Defined.

(** ** MetadataCache: which identifiers share a cache file *)

Section CacheKeys.

Import Url Pathlib World MetadataCache.

Lemma string_length_app (a b : string) :
  String.length (a +:+ b) = (String.length a + String.length b)%nat.
Proof. induction a as [|c a IH]; simpl; [done|]. by rewrite IH. Qed.

Lemma string_app_inj_l (a b suffix : string) :
  a +:+ suffix = b +:+ suffix -> a = b.
Proof.
  revert b. induction a as [|c a IH]; intros [|c' b] Heq.
  - done.
  - apply (f_equal String.length) in Heq.
    change (String c' b +:+ suffix) with (String c' (b +:+ suffix)) in Heq.
    simpl in Heq. rewrite ?string_length_app in Heq. simpl in Heq. lia.
  - apply (f_equal String.length) in Heq.
    change (String c a +:+ suffix) with (String c (a +:+ suffix)) in Heq.
    simpl in Heq. rewrite ?string_length_app in Heq. simpl in Heq. lia.
  - injection Heq as -> Heq. f_equal. by apply IH.
Qed.

Lemma count_app c (a b : string) :
  count c (a +:+ b) = (count c a + count c b)%nat.
Proof.
  induction a as [|c' a IH]; [done|].
  change (String c' a +:+ b) with (String c' (a +:+ b)).
  cbn [count]. rewrite IH. lia.
Qed.

Lemma prefix_char_head (a c : ascii) (s : string) :
  String.prefix (String a EmptyString) (String c s) = true -> a = c.
Proof.
  cbn [String.prefix]. by destruct (ascii_dec a c).
Qed.

Lemma prefix_slash_count (s : string) :
  count "/" s = 0%nat -> String.prefix "/" s = false.
Proof.
  destruct s as [|c s]; [done|]. intros Hcount.
  destruct (String.prefix "/" (String c s)) eqn:Hp; [|done].
  apply prefix_char_head in Hp as <-.
  cbn [count] in Hcount. rewrite Ascii.eqb_refl in Hcount. discriminate.
Qed.

(** For an identifier without a slash the cache file is the file
    [<identifier>.json] directly inside the cache directory. *)
Lemma get_cache_key_flat (video_id : string) :
  count "/" video_id = 0%nat ->
  get_cache_key video_id = "cache/" +:+ video_id +:+ ".json".
Proof.
  intros Hflat.
  assert (count "/" (video_id +:+ ".json") = 0%nat) as Hname
    by (rewrite count_app, Hflat; reflexivity).
  assert (String.length (video_id +:+ ".json") = String.length video_id + 5)%nat
    as Hlen by apply string_length_app.
  assert (String.eqb (video_id +:+ ".json") EmptyString = false) as Hne1.
  { apply String.eqb_neq. intros Heq. rewrite Heq in Hlen. simpl in Hlen. lia. }
  assert (String.eqb (video_id +:+ ".json") "." = false) as Hne2.
  { apply String.eqb_neq. intros Heq. rewrite Heq in Hlen. simpl in Hlen. lia. }
  unfold get_cache_key, joinpath, CACHE_DIR.
  rewrite (prefix_slash_count _ Hname).
  unfold normalise, components.
  change ("cache" +:+ "/" +:+ video_id +:+ ".json")
    with ("cache" +:+ String "/" (video_id +:+ ".json")).
  rewrite split_app, (split_none "/" _ Hname).
  cbn [split app List.filter Ascii.eqb Bool.eqb String.eqb negb andb].
  rewrite Hne1, Hne2. reflexivity.
Qed.

Lemma get_cache_key_flat_inj (id1 id2 : string) :
  count "/" id1 = 0%nat -> count "/" id2 = 0%nat ->
  get_cache_key id1 = get_cache_key id2 -> id1 = id2.
Proof.
  intros H1 H2. rewrite (get_cache_key_flat id1 H1), (get_cache_key_flat id2 H2).
  intros Heq. apply (string_app_inj_l id1 id2 ".json").
  change ("cache/" +:+ id1 +:+ ".json")
    with (String "c" (String "a" (String "c" (String "h" (String "e"
            (String "/" (id1 +:+ ".json"))))))) in Heq.
  change ("cache/" +:+ id2 +:+ ".json")
    with (String "c" (String "a" (String "c" (String "h" (String "e"
            (String "/" (id2 +:+ ".json"))))))) in Heq.
  by injection Heq.
Qed.

(** A save changes nothing but the file it writes. *)
Lemma save_cache_info_other_file utcnow id1 v (w : world) p :
  p <> get_cache_key id1 ->
  cache_files (save_cache_info utcnow id1 v w).2 !! p = cache_files w !! p.
Proof.
  intros Hne. unfold save_cache_info, cache_write.
  destruct (write_text_error w (get_cache_key id1)); [done|].
  simpl. by rewrite lookup_insert_ne.
Qed.

End CacheKeys.

(** X7. Identifiers without a slash have cache files of their own: two
    different such identifiers name different files (file names being
    compared byte by byte), and a save under one of them does not change
    what a lookup under the other returns. With a slash this fails:
    [./abc] and [abc] share [cache/abc.json]. *)
Theorem save_cache_info_other_key (w : World.world) (id1 id2 : string)
    (v : Model.VideoInfo) (t now : Z) :
  Url.count "/" id1 = 0%nat ->
  Url.count "/" id2 = 0%nat ->
  id1 <> id2 ->
  MetadataCache.get_cache_key id1 <> MetadataCache.get_cache_key id2
  /\ (MetadataCache.get_cached_info now id2
        (MetadataCache.save_cache_info t id1 v w).2).1
     = (MetadataCache.get_cached_info now id2 w).1.
Proof.
  intros H1 H2 Hne.
  assert (MetadataCache.get_cache_key id2 <> MetadataCache.get_cache_key id1)
    as Hkeys by (intros Heq; by apply Hne, get_cache_key_flat_inj).
  split; [congruence|].
  pose proof (save_cache_info_other_file t id1 v w _ Hkeys) as Hsame.
  destruct (World.cache_files w !! MetadataCache.get_cache_key id2)
    as [entry|] eqn:Hentry.
  - rewrite (get_cached_info_entry now id2 w entry Hentry).
    by rewrite (get_cached_info_entry now id2 _ entry Hsame).
  - rewrite (get_cached_info_absent now id2 w Hentry).
    by rewrite (get_cached_info_absent now id2 _ Hsame).
Qed.

Lemma save_cache_info_other_key_witness :
  MetadataCache.get_cache_key "abc" <> MetadataCache.get_cache_key "xyz"
  /\ (MetadataCache.get_cached_info 5 "xyz"
        (MetadataCache.save_cache_info 0 "abc"
           {| Model.title := "clip"; Model.thumbnail := "t.jpg";
              Model.duration := 12; Model.formats := [];
              Model.description := None; Model.view_count := None;
              Model.upload_date := None |} Scenario.empty_world).2).1
     = (MetadataCache.get_cached_info 5 "xyz" Scenario.empty_world).1.
Proof.
  apply (save_cache_info_other_key Scenario.empty_world "abc" "xyz").
  - vm_compute. reflexivity.
  - vm_compute. reflexivity.
  - discriminate.
Defined.

(** ** DownloadPipeline: the handler on every path, chunking, consumers *)

Section DownloadPipelineMore.

Import Url Model World MetadataService DownloadPipeline Consumer.

Local Opaque CHUNK_SIZE.

(** The handler, by what the engine and the file system give. *)
Lemma download_video_unfold (ydl : Engine) (video : VideoURL) format_id
    (w : world) :
  download_video ydl video format_id w =
    let w1 := log (EvExtractDownload video format_id) w in
    let w2 := set_download_files
                (extract_download ydl video format_id (download_files w)).2 w1 in
    match (extract_download ydl video format_id (download_files w)).1 with
    | Raise e => on_exception e w2
    | Ok info =>
        if bool_decide (is_Some (download_files w2 !! prepare_filename ydl info))
        then
          if latin1_encodable (basename (prepare_filename ydl info))
          then (Ok {| body_filename := prepare_filename ydl info;
                      body_iterator := Created;
                      media_type := "application/octet-stream";
                      content_disposition :=
                        "attachment; filename=" +:+ dquote
                          +:+ basename (prepare_filename ydl info) +:+ dquote |},
                w2)
          else on_exception (UnicodeEncodeError "latin-1") w2
        else on_exception
               (HTTPException 404 (Text "File not found after download")) w2
    end.
Proof.
  unfold download_video, try_except, bind, call_extract_download, path_exists.
  cbn [download_files log set_download_files fst snd].
  destruct (extract_download ydl video format_id (download_files w))
    as [[info|e] files]; cbn [download_files log set_download_files fst snd];
    [|done].
  destruct (bool_decide _); [|done].
  rewrite make_streaming_response_cases.
  by destruct (latin1_encodable _).
Qed.

Lemma on_exception_world {A} (e : exn) (w : world) :
  (@on_exception A e w).2 = w.
Proof. by destruct e. Qed.

(** Chunk sizes of a full iteration from a suspended generator. *)
Lemma consume_suspended_sizes filename :
  forall fuel (f : list Byte.byte) (w : world),
  (length f < fuel)%nat ->
  is_Some (download_files w !! filename) ->
  let chunks := (consume fuel filename (Suspended f) w).1.1.1 in
  Forall (fun c => length c = CHUNK_SIZE) (removelast chunks)
  /\ (length f <= length chunks * CHUNK_SIZE)%nat
  /\ (length chunks * CHUNK_SIZE < length f + CHUNK_SIZE)%nat.
Proof.
  pose proof CHUNK_SIZE_pos as Hpos.
  induction fuel as [|fuel IH]; intros f w Hfuel [content Hfile]; [lia|].
  cbn [consume next]. unfold resume_loop.
  destruct (take CHUNK_SIZE f) as [|b chunk] eqn:Htake.
  - apply take_chunk_nil in Htake as ->.
    unfold unlink. simpl. rewrite Hfile. simpl.
    split; [constructor|lia].
  - assert (f <> []) as Hne by (intros ->; by rewrite take_nil in Htake).
    assert (0 < length f)%nat as Hlen by (destruct f; [done|simpl; lia]).
    assert (length (drop CHUNK_SIZE f) < fuel)%nat as Hrest
      by (rewrite length_drop; lia).
    specialize (IH (drop CHUNK_SIZE f) w Hrest (ex_intro _ content Hfile)).
    destruct (consume fuel filename (Suspended (drop CHUNK_SIZE f)) w)
      as [[[chunks fin] gen] w'].
    cbn [fst snd] in *. destruct IH as (Hall & Hlo & Hhi).
    rewrite length_drop in Hlo, Hhi.
    assert (length (b :: chunk) = (CHUNK_SIZE `min` length f)%nat) as Hchunk
      by (rewrite <- Htake; apply length_take).
    destruct chunks as [|c chunks].
    + split; [constructor|]. simpl in *. lia.
    + change (removelast ((b :: chunk) :: c :: chunks))
        with ((b :: chunk) :: removelast (c :: chunks)).
      cbn [length] in *. rewrite !Nat.mul_succ_l in *.
      split; [|lia]. constructor; [|done]. cbn [length]. lia.
Qed.

(** Any consumer, from a suspended generator whose file is on storage:
    either the artifact is still there and what was received is the start
    of the unread bytes, or the artifact was deleted, once, and every
    unread byte was received. *)
Lemma stream_suspended filename bytes : forall actions f (w : world),
  download_files w !! filename = Some bytes ->
  let r := stream filename actions (Suspended f) w in
  (received r.1.1 `prefix_of` f
   /\ download_files r.2 !! filename = Some bytes
   /\ unlink_count filename r.2 = unlink_count filename w)
  \/ (received r.1.1 = f
      /\ download_files r.2 !! filename = None
      /\ unlink_count filename r.2 = S (unlink_count filename w)).
Proof.
  induction actions as [|[read_fails|] rest IH]; intros f w Hfile.
  - left. simpl. split; [apply prefix_nil|done].
  - cbn [stream next]. unfold resume_loop.
    destruct read_fails.
    { left. simpl. split; [apply prefix_nil|]. split; [done|].
      apply unlink_count_log_close. }
    destruct (take CHUNK_SIZE f) as [|b chunk] eqn:Htake.
    + apply take_chunk_nil in Htake as ->.
      unfold unlink. simpl. rewrite Hfile. simpl. right.
      split; [done|]. split; [apply lookup_delete_eq|].
      rewrite unlink_count_log_unlink. f_equal.
      apply (unlink_count_log_close filename filename w).
    + specialize (IH (drop CHUNK_SIZE f) w Hfile).
      destruct (stream filename rest (Suspended (drop CHUNK_SIZE f)) w)
        as [[outs gen] w'].
      cbn [fst snd received] in *.
      destruct IH as [(Hpre & Hkeep & Hcount)|(Hall & Hgone & Hcount)].
      * left. split; [|done].
        rewrite <- (take_drop CHUNK_SIZE f), Htake.
        by apply prefix_app.
      * right. split; [|done].
        by rewrite Hall, <- Htake, take_drop.
  - left. simpl. split; [apply prefix_nil|]. split; [done|].
    apply unlink_count_log_close.
Qed.

End DownloadPipelineMore.

(** X17. The download handler calls the engine exactly once on every
    request, whatever the URL: it never reads [video_id], so a URL that
    the metadata handler refuses is still handed to the engine. It never
    touches the cache, and the download directory is left exactly as the
    engine left it. *)
Theorem download_video_always_calls_engine (ydl : World.Engine)
    (video : Url.VideoURL) (format_id : string) (w : World.world) :
  let w' := (DownloadPipeline.download_video ydl video format_id w).2 in
  World.trace w' = World.trace w ++ [World.EvExtractDownload video format_id]
  /\ World.cache_files w' = World.cache_files w
  /\ World.download_files w'
     = (World.extract_download ydl video format_id (World.download_files w)).2.
Proof.
  rewrite download_video_unfold. cbn zeta.
  destruct (World.extract_download ydl video format_id (World.download_files w))
    as [[info|e] files]; cbn [fst snd].
  - destruct (bool_decide _); [destruct (DownloadPipeline.latin1_encodable _)|];
      done.
  - by rewrite on_exception_world.
Qed.

(** X18. Whatever goes wrong in the download handler reaches the client
    as an [HTTPException] with status 400 or 500, never 404; status 400
    means that the engine raised [DownloadError]. *)
Theorem download_video_error_statuses (ydl : World.Engine)
    (video : Url.VideoURL) (format_id : string) (w : World.world) (e : exn) :
  (DownloadPipeline.download_video ydl video format_id w).1 = Raise e ->
  exists status prefix cause,
    e = HTTPException status (FString prefix cause)
    /\ ((status = 400
         /\ exists msg,
              cause = DownloadError msg
              /\ (World.extract_download ydl video format_id
                    (World.download_files w)).1 = Raise (DownloadError msg))
        \/ status = 500).
Proof.
  rewrite download_video_unfold. cbn zeta.
  destruct (World.extract_download ydl video format_id (World.download_files w))
    as [[info|e0] files]; cbn [fst snd].
  - destruct (bool_decide _);
      [destruct (DownloadPipeline.latin1_encodable _); [discriminate|]|];
      intros [= <-]; eexists _, _, _; (split; [done|]); by right.
  - destruct (@on_exception_raises DownloadPipeline.StreamingResponse e0
                (World.set_download_files files
                   (World.log (World.EvExtractDownload video format_id) w)))
      as (status & prefix & -> & Hstatus).
    simpl. intros [= <-]. eexists _, _, _. split; [done|].
    destruct Hstatus as [[-> [msg ->]]|[-> _]]; [left|by right].
    split; [done|]. eauto.
Qed.

Lemma download_video_error_statuses_witness :
  exists status prefix cause,
    HTTPException 400
      (FString "Video download error: " (DownloadError "Video unavailable"))
    = HTTPException status (FString prefix cause)
    /\ ((status = 400
         /\ exists msg,
              cause = DownloadError msg
              /\ (World.extract_download MoreScenarios.unavailable_engine
                    Scenario.watch_abc "18"
                    (World.download_files Scenario.empty_world)).1
                 = Raise (DownloadError msg))
        \/ status = 500).
Proof.
  apply (download_video_error_statuses MoreScenarios.unavailable_engine
           Scenario.watch_abc "18" Scenario.empty_world).
  vm_compute. reflexivity.
Defined.

(** X19. Chunking. When the artifact holds [bytes], a full iteration of
    [iterfile] hands over chunks of exactly 8192 bytes except possibly
    the last one, and the number of chunks is [length bytes / 8192]
    rounded up. *)
Theorem iterfile_chunk_sizes (filename : string) (bytes : list Byte.byte)
    (w : World.world) (extra : nat) :
  World.download_files w !! filename = Some bytes ->
  let chunks :=
    (DownloadPipeline.consume (S (length bytes) + extra) filename
       DownloadPipeline.Created w).1.1.1 in
  Forall (fun c => length c = DownloadPipeline.CHUNK_SIZE) (removelast chunks)
  /\ (length bytes <= length chunks * DownloadPipeline.CHUNK_SIZE)%nat
  /\ (length chunks * DownloadPipeline.CHUNK_SIZE
      < length bytes + DownloadPipeline.CHUNK_SIZE)%nat.
Proof.
  intros Hfile.
  change (S (length bytes) + extra)%nat with (S (length bytes + extra)).
  rewrite (consume_created filename (length bytes + extra) bytes w Hfile).
  apply consume_suspended_sizes; [lia|].
  simpl. by eexists.
Qed.

Lemma iterfile_chunk_sizes_witness :
  let chunks :=
    (DownloadPipeline.consume (S 3 + 0) Scenario.artifact_path
       DownloadPipeline.Created Scenario.downloaded_world).1.1.1 in
  Forall (fun c => length c = DownloadPipeline.CHUNK_SIZE) (removelast chunks)
  /\ (3 <= length chunks * DownloadPipeline.CHUNK_SIZE)%nat
  /\ (length chunks * DownloadPipeline.CHUNK_SIZE
      < 3 + DownloadPipeline.CHUNK_SIZE)%nat.
Proof.
  apply (iterfile_chunk_sizes Scenario.artifact_path Scenario.artifact_bytes
           Scenario.downloaded_world 0).
  vm_compute. reflexivity.
Defined.

(** X20. Any consumer. Whatever the consumer does with a fresh generator
    (any number of [next] calls, a failing read, an early disconnect),
    one of two things holds afterwards: the artifact is still on storage,
    untouched, and what the consumer received is a prefix of its bytes;
    or the artifact was deleted, exactly once, and the consumer received
    every byte. The artifact is never deleted before it has been handed
    over completely. *)
Theorem iterfile_any_consumer (filename : string) (bytes : list Byte.byte)
    (actions : list DownloadPipeline.action) (w : World.world) :
  World.download_files w !! filename = Some bytes ->
  let r := DownloadPipeline.stream filename actions DownloadPipeline.Created w in
  (Consumer.received r.1.1 `prefix_of` bytes
   /\ World.download_files r.2 !! filename = Some bytes
   /\ DownloadPipeline.unlink_count filename r.2
      = DownloadPipeline.unlink_count filename w)
  \/ (Consumer.received r.1.1 = bytes
      /\ World.download_files r.2 !! filename = None
      /\ DownloadPipeline.unlink_count filename r.2
         = S (DownloadPipeline.unlink_count filename w)).
Proof.
  intros Hfile.
  destruct actions as [|[read_fails|] rest].
  - left. simpl. split; [apply prefix_nil|done].
  - pose proof (stream_suspended filename bytes
                  (DownloadPipeline.Next read_fails :: rest) bytes
                  (World.log (World.EvOpen filename) w) Hfile) as Hs.
    rewrite !unlink_count_log_open in Hs.
    cbn [DownloadPipeline.stream DownloadPipeline.next] in *.
    rewrite Hfile. exact Hs.
  - left. simpl. split; [apply prefix_nil|done].
Qed.

Lemma iterfile_any_consumer_witness :
  let r := DownloadPipeline.stream Scenario.artifact_path
             [DownloadPipeline.Next false; DownloadPipeline.Disconnect]
             DownloadPipeline.Created Scenario.downloaded_world in
  (Consumer.received r.1.1 `prefix_of` Scenario.artifact_bytes
   /\ World.download_files r.2 !! Scenario.artifact_path
      = Some Scenario.artifact_bytes
   /\ DownloadPipeline.unlink_count Scenario.artifact_path r.2
      = DownloadPipeline.unlink_count Scenario.artifact_path
          Scenario.downloaded_world)
  \/ (Consumer.received r.1.1 = Scenario.artifact_bytes
      /\ World.download_files r.2 !! Scenario.artifact_path = None
      /\ DownloadPipeline.unlink_count Scenario.artifact_path r.2
         = S (DownloadPipeline.unlink_count Scenario.artifact_path
                Scenario.downloaded_world)).
Proof.
  apply (iterfile_any_consumer Scenario.artifact_path Scenario.artifact_bytes
           [DownloadPipeline.Next false; DownloadPipeline.Disconnect]
           Scenario.downloaded_world).
  vm_compute. reflexivity.
Defined.

(** ** The middleware in front of every route *)

(** X21. A request is answered with status 429 exactly when the caller
    already has [max_requests] timestamps younger than [window_seconds];
    then the application is not run and nothing outside the limiter
    changes. Otherwise the answer and the outside effects are those of
    the application. *)
Theorem middleware_rejects_without_effect {R : Type}
    (cfg : RateLimiter.config) (now : Z) (client_host : string)
    (call_next : World.world -> R * World.world) (st : Middleware.app_state) :
  let recent :=
    RateLimiter.purge cfg now
      (default [] (Middleware.rate_limit_store st !! client_host)) in
  let r := Middleware.add_process_time_header cfg now client_host call_next st in
  (RateLimiter.max_requests cfg <= Z.of_nat (length recent)
   /\ r.1 = inl {| Middleware.status_code := 429;
                   Middleware.detail :=
                     "Too many requests. Please try again later." |}
   /\ Middleware.outside r.2 = Middleware.outside st)
  \/ (Z.of_nat (length recent) < RateLimiter.max_requests cfg
      /\ r.1 = inr (call_next (Middleware.outside st)).1
      /\ Middleware.outside r.2 = (call_next (Middleware.outside st)).2).
Proof.
  intros recent r. subst r.
  unfold Middleware.add_process_time_header.
  rewrite check_rate_limit_admission. unfold RateLimiter.admission.
  fold recent.
  destruct (Z.of_nat (length recent) >=? RateLimiter.max_requests cfg) eqn:Hfull;
    rewrite Z.geb_leb in Hfull; simpl.
  - apply Z.leb_le in Hfull. by left.
  - apply Z.leb_gt in Hfull. right.
    by destruct (call_next (Middleware.outside st)).
Qed.

(** X22. The download handler returns a response only for a file that
    exists: when it succeeds, the engine call succeeded, the response
    streams the file named by [prepare_filename], that file is on storage
    at that moment, the generator has not started (nothing is opened or
    read before the consumer asks), and the header names the file's base
    name. *)
Theorem download_video_response_has_file (ydl : World.Engine)
    (video : Url.VideoURL) (format_id : string) (w : World.world)
    (response : DownloadPipeline.StreamingResponse) :
  (DownloadPipeline.download_video ydl video format_id w).1 = Ok response ->
  exists info,
    (World.extract_download ydl video format_id (World.download_files w)).1
      = Ok info
    /\ DownloadPipeline.body_filename response = World.prepare_filename ydl info
    /\ is_Some
         (World.download_files
            (DownloadPipeline.download_video ydl video format_id w).2
            !! DownloadPipeline.body_filename response)
    /\ DownloadPipeline.body_iterator response = DownloadPipeline.Created
    /\ DownloadPipeline.content_disposition response
       = "attachment; filename=" +:+ DownloadPipeline.dquote
           +:+ DownloadPipeline.basename (World.prepare_filename ydl info)
           +:+ DownloadPipeline.dquote.
Proof.
  rewrite download_video_unfold. cbn zeta.
  destruct (World.extract_download ydl video format_id (World.download_files w))
    as [[info|e] files]; cbn [fst snd].
  - destruct (bool_decide _) eqn:Hpresent; [|discriminate].
    destruct (DownloadPipeline.latin1_encodable _); [|discriminate].
    intros [= <-]. exists info. simpl.
    apply bool_decide_eq_true_1 in Hpresent. done.
  - destruct (@on_exception_raises DownloadPipeline.StreamingResponse e
                (World.set_download_files files
                   (World.log (World.EvExtractDownload video format_id) w)))
      as (status & prefix & -> & _).
    discriminate.
Qed.

Lemma download_video_response_has_file_witness :
  exists info,
    (World.extract_download Scenario.writing_engine Scenario.watch_abc "18"
       (World.download_files Scenario.empty_world)).1 = Ok info
    /\ Scenario.artifact_path = World.prepare_filename Scenario.writing_engine info
    /\ is_Some
         (World.download_files
            (DownloadPipeline.download_video Scenario.writing_engine
               Scenario.watch_abc "18" Scenario.empty_world).2
            !! Scenario.artifact_path)
    /\ DownloadPipeline.Created = DownloadPipeline.Created
    /\ ("attachment; filename=" +:+ DownloadPipeline.dquote
          +:+ DownloadPipeline.basename Scenario.artifact_path
          +:+ DownloadPipeline.dquote)
       = "attachment; filename=" +:+ DownloadPipeline.dquote
           +:+ DownloadPipeline.basename
                 (World.prepare_filename Scenario.writing_engine info)
           +:+ DownloadPipeline.dquote.
Proof.
  apply (download_video_response_has_file Scenario.writing_engine
           Scenario.watch_abc "18" Scenario.empty_world
           {| DownloadPipeline.body_filename := Scenario.artifact_path;
              DownloadPipeline.body_iterator := DownloadPipeline.Created;
              DownloadPipeline.media_type := "application/octet-stream";
              DownloadPipeline.content_disposition :=
                "attachment; filename=" +:+ DownloadPipeline.dquote
                  +:+ DownloadPipeline.basename Scenario.artifact_path
                  +:+ DownloadPipeline.dquote |}).
  vm_compute. reflexivity.
Defined.
